(** * WAV volume editor: container codec and gain processor

    A shallow embedding of [adjust_wav_volume.py] and the properties of its
    chunk reader, chunk writer and sample transform.

    Conventions of the embedding.
    - A Python [bytes] object is a [list byte]; a Python [str] is the list of
      its Unicode code points; a Python [int] is a [Z].
    - The [chunks] dictionary is an association list without duplicate keys
      that keeps insertion order, as a Python [dict] does.
    - An uncaught exception is the [Raise] outcome of the [result] type.
    - File and console input/output are left out: [read_wav_chunks] takes the
      bytes of the input file and [write_wav_chunks] returns the bytes it
      writes.  [wave.open] opens the same path a second time and is taken to
      see the same bytes.
    - A [numpy] array of [float32] is a list of binary32 numbers
      ([spec_float] at precision 24), with the IEEE 754 operations of
      [SpecFloat].  A Python scalar combined with such an array takes the
      type of the array (the promotion rule of NumPy 2), so the factor and
      the bounds of [np.clip] are [float32] values.
    - [volume_change_factor = 10 ** (db_change / 20)] is computed by the C
      library and the sample width is read by the [wave] module.
      [gain_frames] and [reduce_volume] model the function once both have
      returned, with the width and the factor as arguments;
      [gain_frames_db] and [reduce_volume_file] model all of it, with the
      two library calls, and the exceptions they can raise, as the fields of
      an [environment].
    - Integers in sample buffers are little-endian, the native order of the
      machines the script runs on. *)

From Stdlib Require Import ZArith List Bool Lia.
From Stdlib Require Import Strings.Byte.
From Stdlib Require Import Floats.SpecFloat.
Import ListNotations.

Local Open Scope Z_scope.

(** ** Outcomes *)

(** The exceptions the three functions can raise.  The script raises
    [ValueError] with four different messages; the others come from [str],
    [struct], [numpy], the [wave] module and the power of line 96. *)
Inductive exn : Type :=
| ValueError_not_riff                 (* "Not a valid RIFF file" *)
| ValueError_not_wave                 (* "Not a valid WAV file" *)
| ValueError_data_not_found           (* "'data' chunk not found in the WAV file" *)
| ValueError_unsupported_width (w : Z)(* "Unsupported sample width: w" *)
| ValueError_buffer_size              (* numpy.frombuffer: buffer size must be
                                         a multiple of element size *)
| UnicodeDecodeError                  (* bytes.decode('ascii') *)
| UnicodeEncodeError                  (* str.encode('ascii') *)
| KeyError                            (* chunks['data'] on a missing key *)
| struct_error                        (* struct.pack / struct.unpack *)
| wave_Error                          (* wave.open: not a PCM WAVE file *)
| EOFError                            (* wave.open: the file ends too early *)
| OverflowError.                      (* 10 ** x beyond the range of float *)

Inductive result (A : Type) : Type :=
| Ok (a : A)
| Raise (e : exn)
| OutOfFuel.   (* the loop bound of the model ran out; never the outcome,
                  see [read_wav_chunks_terminates] *)

Arguments Ok {A} a.
Arguments Raise {A} e.
Arguments OutOfFuel {A}.

Definition bind {A B : Type} (r : result A) (k : A -> result B) : result B :=
  match r with
  | Ok a => k a
  | Raise e => Raise e
  | OutOfFuel => OutOfFuel
  end.

Notation "x <- r ;; k" := (bind r (fun x => k))
  (at level 61, r at next level, right associativity).
Notation "' p <- r ;; k" := (bind r (fun x => let p := x in k))
  (at level 61, p pattern, r at next level, right associativity).

(** ** Bytes, slices and 32-bit little-endian integers *)

Definition bytes := list byte.

Definition len {A : Type} (l : list A) : Z := Z.of_nat (length l).

Definition Z_of_byte (b : byte) : Z := Z.of_N (Byte.to_N b).

Definition byte_of_Z (z : Z) : byte :=
  match Byte.of_N (Z.to_N (z mod 256)) with
  | Some b => b
  | None => x00
  end.

(** [data[a:b]] for [0 <= a <= b]; like Python it stops at the end of the
    buffer. *)
Definition slice {A : Type} (a b : Z) (l : list A) : list A :=
  firstn (Z.to_nat (b - a)) (skipn (Z.to_nat a) l).

(** [struct.unpack('<I', bs)[0]] *)
Definition unpack_u32 (bs : bytes) : result Z :=
  match bs with
  | [b0; b1; b2; b3] =>
      Ok (Z_of_byte b0 + 256 * Z_of_byte b1 + 65536 * Z_of_byte b2
          + 16777216 * Z_of_byte b3)
  | _ => Raise struct_error
  end.

(** The four bytes of [n], least significant first. *)
Definition u32_bytes (n : Z) : bytes :=
  [byte_of_Z n; byte_of_Z (n / 256); byte_of_Z (n / 65536);
   byte_of_Z (n / 16777216)].

(** [struct.pack('<I', n)] *)
Definition pack_u32 (n : Z) : result bytes :=
  if (0 <=? n) && (n <? 2 ^ 32) then Ok (u32_bytes n) else Raise struct_error.

(** ** Strings *)

Definition str := list N.

Fixpoint str_eqb (s t : str) : bool :=
  match s, t with
  | [], [] => true
  | c :: s', d :: t' => N.eqb c d && str_eqb s' t'
  | _, _ => false
  end.

Definition is_ascii (b : byte) : bool := N.ltb (Byte.to_N b) 128.

(** [bs.decode('ascii')] *)
Definition decode_ascii (bs : bytes) : result str :=
  if forallb is_ascii bs then Ok (map Byte.to_N bs) else Raise UnicodeDecodeError.

(** [bs.decode('ascii', errors="replace")]: every byte above 127 becomes
    U+FFFD. *)
Definition decode_ascii_replace (bs : bytes) : str :=
  map (fun b => if is_ascii b then Byte.to_N b else 65533%N) bs.

(** [s.encode('ascii')] *)
Definition encode_ascii (s : str) : result bytes :=
  if forallb (fun c => N.ltb c 128) s
  then Ok (map (fun c => byte_of_Z (Z.of_N c)) s)
  else Raise UnicodeEncodeError.

Definition str_RIFF : str := [82; 73; 70; 70]%N.
Definition str_WAVE : str := [87; 65; 86; 69]%N.
Definition str_data : str := [100; 97; 116; 97]%N.

Definition b_RIFF : bytes := [x52; x49; x46; x46].
Definition b_WAVE : bytes := [x57; x41; x56; x45].

(** ** The chunk dictionary *)

Definition dict := list (str * bytes).

Fixpoint dict_get (k : str) (d : dict) : option bytes :=
  match d with
  | [] => None
  | (k', v) :: d' => if str_eqb k k' then Some v else dict_get k d'
  end.

(** [d[k] = v]: an existing key keeps its place, a new key goes last. *)
Fixpoint dict_set (k : str) (v : bytes) (d : dict) : dict :=
  match d with
  | [] => [(k, v)]
  | (k', v') :: d' =>
      if str_eqb k k' then (k', v) :: d' else (k', v') :: dict_set k v d'
  end.

Definition dict_keys (d : dict) : list str := map fst d.

(** ** [read_wav_chunks] *)

(** The [while] loop of [read_wav_chunks].  Each iteration moves [pos] forward
    by at least 8, so [fuel] iterations are enough once [fuel] exceeds the
    number of bytes left. *)
Fixpoint chunk_loop (fuel : nat) (data : bytes) (pos : Z) (chunks : dict)
  : result dict :=
  match fuel with
  | O => OutOfFuel
  | S fuel' =>
      if pos + 8 <=? len data then
        let chunk_id := decode_ascii_replace (slice pos (pos + 4) data) in
        chunk_size <- unpack_u32 (slice (pos + 4) (pos + 8) data) ;;
        let start := pos + 8 in
        let end_ := start + chunk_size in
        if end_ >? len data then Ok chunks
        else
          let chunk_data := slice start end_ data in
          let chunks := dict_set chunk_id chunk_data chunks in
          let pos := end_ in
          let pos := if chunk_size mod 2 =? 1 then pos + 1 else pos in
          chunk_loop fuel' data pos chunks
      else Ok chunks
  end.

Definition read_wav_chunks (data : bytes) : result (dict * Z) :=
  riff <- decode_ascii (slice 0 4 data) ;;
  if negb (str_eqb riff str_RIFF) then Raise ValueError_not_riff else
  file_size <- unpack_u32 (slice 4 8 data) ;;
  wave_header <- decode_ascii (slice 8 12 data) ;;
  if negb (str_eqb wave_header str_WAVE) then Raise ValueError_not_wave else
  chunks <- chunk_loop (S (length data)) data 12 [] ;;
  Ok (chunks, file_size).

(** ** [write_wav_chunks] *)

(** The [for] loop over [chunks.items()]. *)
Fixpoint write_items (items : dict) : result bytes :=
  match items with
  | [] => Ok []
  | (chunk_id, chunk_data) :: rest =>
      id_bytes <- encode_ascii chunk_id ;;
      size_bytes <- pack_u32 (len chunk_data) ;;
      tail <- write_items rest ;;
      Ok (id_bytes ++ size_bytes ++ chunk_data ++ tail)
  end.

Definition write_wav_chunks (chunks : dict) (original_size : Z) : result bytes :=
  size_bytes <- pack_u32 original_size ;;
  body <- write_items chunks ;;
  Ok (b_RIFF ++ size_bytes ++ b_WAVE ++ body).

(** ** Sample arrays *)

(** The three [numpy] integer types of the script. *)
Inductive dtype : Type := uint8 | int16 | int32.

Definition itemsize (dt : dtype) : Z :=
  match dt with uint8 => 1 | int16 => 2 | int32 => 4 end.

Definition dtype_min (dt : dtype) : Z :=
  match dt with uint8 => 0 | int16 => -32768 | int32 => -2147483648 end.

Definition dtype_max (dt : dtype) : Z :=
  match dt with uint8 => 255 | int16 => 32767 | int32 => 2147483647 end.

Definition in_dtype (dt : dtype) (z : Z) : bool :=
  (dtype_min dt <=? z) && (z <=? dtype_max dt).

(** Reduction of an integer into the range of [dt], as integer arithmetic on
    an array of that type does. *)
Definition wrap (dt : dtype) (z : Z) : Z :=
  let m := 2 ^ (8 * itemsize dt) in
  (z - dtype_min dt) mod m + dtype_min dt.

(** Two's complement reading of an unsigned [bits]-bit value. *)
Definition signed (bits : Z) (u : Z) : Z :=
  if u <? 2 ^ (bits - 1) then u else u - 2 ^ bits.

(** [np.frombuffer(buf, dtype=...)] on a little-endian machine, one function
    per item size. *)
Definition frombuffer_u8 (buf : bytes) : list Z := map Z_of_byte buf.

Fixpoint frombuffer_i16 (buf : bytes) : list Z :=
  match buf with
  | b0 :: b1 :: rest =>
      signed 16 (Z_of_byte b0 + 256 * Z_of_byte b1) :: frombuffer_i16 rest
  | _ => []
  end.

Fixpoint frombuffer_i32 (buf : bytes) : list Z :=
  match buf with
  | b0 :: b1 :: b2 :: b3 :: rest =>
      signed 32 (Z_of_byte b0 + 256 * Z_of_byte b1 + 65536 * Z_of_byte b2
                 + 16777216 * Z_of_byte b3) :: frombuffer_i32 rest
  | _ => []
  end.

Definition frombuffer (dt : dtype) (buf : bytes) : result (list Z) :=
  if len buf mod itemsize dt =? 0 then
    Ok (match dt with
        | uint8 => frombuffer_u8 buf
        | int16 => frombuffer_i16 buf
        | int32 => frombuffer_i32 buf
        end)
  else Raise ValueError_buffer_size.

(** [a.tobytes()] for an integer array of type [dt]. *)
Definition item_bytes (dt : dtype) (z : Z) : bytes :=
  match dt with
  | uint8 => [byte_of_Z z]
  | int16 => [byte_of_Z z; byte_of_Z (z / 256)]
  | int32 => [byte_of_Z z; byte_of_Z (z / 256); byte_of_Z (z / 65536);
              byte_of_Z (z / 16777216)]
  end.

Definition tobytes (dt : dtype) (a : list Z) : bytes :=
  flat_map (item_bytes dt) a.

(** ** binary32 arithmetic *)

Definition f32 := spec_float.

(** Conversion of an integer to the nearest [float32], ties to even:
    [astype(np.float32)] on an integer array, and the conversion of a Python
    [int] operand of a [float32] array. *)
Definition f32_of_Z (z : Z) : f32 := binary_normalize 24 128 z 0 false.

Definition f32_mul : f32 -> f32 -> f32 := SFmul 24 128.
Definition f32_sub : f32 -> f32 -> f32 := SFsub 24 128.

Definition f32_is_nan (x : f32) : bool :=
  match x with S754_nan => true | _ => false end.

(** [np.clip(x, lo, hi)] on one element: [min(max(x, lo), hi)], where a NaN
    [x] is returned as it is. *)
Definition f32_clip (x lo hi : f32) : f32 :=
  if f32_is_nan x then x
  else
    let y := if SFltb lo x then x else lo in
    if SFltb y hi then y else hi.

(** The integer part of a float, rounded toward zero; [None] for an infinity
    or a NaN. *)
Definition f32_trunc (x : f32) : option Z :=
  match x with
  | S754_zero _ => Some 0
  | S754_finite s m e =>
      let a := if 0 <=? e then Z.pos m * 2 ^ e else Z.pos m / 2 ^ (- e) in
      Some (if s then - a else a)
  | S754_infinity _ | S754_nan => None
  end.

(** C leaves the conversion of a float to an integer type undefined when the
    integer part does not fit the type; [numpy] stores whatever the machine
    instruction yields.  That value is a parameter of the model. *)
Record platform : Type := { cast_invalid : dtype -> f32 -> Z }.

(** On x86-64 the conversion goes through the 32-bit [cvttss2si], which
    yields [0x80000000] when the integer part does not fit 32 bits, and the
    low bits of that result are kept for a narrower type. *)
Definition x86_64 : platform :=
  {| cast_invalid := fun _ x =>
       match f32_trunc x with
       | Some z => if in_dtype int32 z then z else -2147483648
       | None => -2147483648
       end |}.

(** [x.astype(dt)] on one [float32] element. *)
Definition astype (P : platform) (dt : dtype) (x : f32) : Z :=
  match f32_trunc x with
  | Some z => if in_dtype dt z then z else wrap dt (cast_invalid P dt x)
  | None => wrap dt (cast_invalid P dt x)
  end.

(** ** [reduce_volume] *)

(** Lines 82-112 once line 96 has returned: from the payload of the [data]
    chunk to the new payload.  [factor] is [volume_change_factor] as a
    [float32], the type in which [audio_data *= volume_change_factor]
    multiplies; for [db_change = 0] it is [10 ** 0.0 = 1.0].  The
    [OverflowError] of line 96 is not an outcome here: [gain_frames_db]
    below has it, and is this function whenever line 96 returns
    ([gain_frames_db_given]). *)
Definition gain_frames (P : platform) (sampwidth : Z) (factor : f32)
  (audio_frames : bytes) : result bytes :=
  '(dt, audio_data) <-
    (if sampwidth =? 1 then
       a <- frombuffer uint8 audio_frames ;;
       Ok (uint8, map (fun z => f32_sub (f32_of_Z z) (f32_of_Z 128)) a)
     else if sampwidth =? 2 then
       a <- frombuffer int16 audio_frames ;;
       Ok (int16, map f32_of_Z a)
     else if sampwidth =? 4 then
       a <- frombuffer int32 audio_frames ;;
       Ok (int32, map f32_of_Z a)
     else Raise (ValueError_unsupported_width sampwidth)) ;;
  let audio_data := map (fun x => f32_mul x factor) audio_data in
  let max_val := 2 ^ (8 * sampwidth - 1) - 1 in
  let min_val := - max_val - 1 in
  let audio_data :=
    map (fun x => f32_clip x (f32_of_Z min_val) (f32_of_Z max_val)) audio_data in
  let audio_data := map (astype P dt) audio_data in
  let audio_data :=
    if sampwidth =? 1 then map (fun z => wrap uint8 (z + 128)) audio_data
    else audio_data in
  Ok (tobytes dt audio_data).

(** Lines 61-118 on the chunk dictionary: the dictionary after the call,
    which Python mutates in place, and the new size or the exception. *)
Definition reduce_volume_chunks (P : platform) (chunks : dict)
  (original_size sampwidth : Z) (factor : f32) : dict * result Z :=
  match dict_get str_data chunks with
  | None => (chunks, Raise ValueError_data_not_found)
  | Some audio_frames =>
      match gain_frames P sampwidth factor audio_frames with
      | Ok new_frames =>
          let chunks := dict_set str_data new_frames chunks in
          (chunks,
           match dict_get str_data chunks with
           | Some d => Ok (original_size - len d + len new_frames)
           | None => Raise KeyError
           end)
      | Raise e => (chunks, Raise e)
      | OutOfFuel => (chunks, OutOfFuel)
      end
  end.

(** The function once [wave.open] (lines 67-72) has reported [sampwidth] and
    line 96 has returned [factor]: the bytes of the input file to the bytes
    of the output file.  What the two calls can raise is not an outcome
    here: [reduce_volume_file] below has both calls, and is this function
    whenever they return ([reduce_volume_file_given]). *)
Definition reduce_volume (P : platform) (data : bytes) (sampwidth : Z)
  (factor : f32) : result bytes :=
  '(chunks, original_size) <- read_wav_chunks data ;;
  let '(chunks, r) :=
    reduce_volume_chunks P chunks original_size sampwidth factor in
  new_size <- r ;;
  write_wav_chunks chunks new_size.

(** The factors for 0 dB, and for 20 dB where [10 ** 1.0 = 10.0]; 2.0 is
    the factor of the clamping examples. *)
Definition f32_one : f32 := f32_of_Z 1.
Definition f32_two : f32 := f32_of_Z 2.
Definition f32_ten : f32 := f32_of_Z 10.

(** ** Container layout

    The byte layout that [read_wav_chunks] parses, used to state its
    properties: a header, then chunks, each an identifier of four bytes, the
    payload length, the payload and a pad byte after a payload of odd
    length. *)

Definition raw_chunk : Type := bytes * bytes.   (* identifier, payload *)

Definition pad_of (payload : bytes) : bytes :=
  if len payload mod 2 =? 1 then [x00] else [].

Definition chunk_bytes (c : raw_chunk) : bytes :=
  fst c ++ u32_bytes (len (snd c)) ++ snd c ++ pad_of (snd c).

Definition stream (cs : list raw_chunk) : bytes := flat_map chunk_bytes cs.

Definition header (size : Z) : bytes := b_RIFF ++ u32_bytes size ++ b_WAVE.

Definition well_formed (c : raw_chunk) : Prop :=
  len (fst c) = 4 /\ len (snd c) < 2 ^ 32.

(** What follows the last complete chunk: too short for a chunk header, or a
    header whose declared length exceeds the bytes that remain. *)
Definition truncated (tail : bytes) : Prop :=
  len tail < 8 \/
  exists n, unpack_u32 (slice 4 8 tail) = Ok n /\ len tail < 8 + n.

(** The dictionary built from the chunks of a stream, in stream order. *)
Definition add_chunk (d : dict) (c : raw_chunk) : dict :=
  dict_set (decode_ascii_replace (fst c)) (snd c) d.

Definition dict_of (cs : list raw_chunk) : dict := fold_left add_chunk cs [].

(** A buffer that starts with the two tags [read_wav_chunks] checks. *)
Definition valid_tags (data : bytes) : Prop :=
  slice 0 4 data = b_RIFF /\ slice 8 12 data = b_WAVE.

(** The bytes [write_wav_chunks] emits for one dictionary entry whose key is
    ASCII. *)
Definition item_layout (kv : str * bytes) : bytes :=
  map (fun c => byte_of_Z (Z.of_N c)) (fst kv) ++ u32_bytes (len (snd kv)) ++ snd kv.

Definition writable (kv : str * bytes) : Prop :=
  forallb (fun c => N.ltb c 128) (fst kv) = true /\ len (snd kv) < 2 ^ 32.

(** The chunk of the byte stream that a dictionary entry is written as. *)
Definition raw_of_item (kv : str * bytes) : raw_chunk :=
  (map (fun c => byte_of_Z (Z.of_N c)) (fst kv), snd kv).

(** An entry that the writer can emit and whose payload needs no pad byte. *)
Definition even_item (kv : str * bytes) : Prop :=
  len (fst kv) = 4 /\ writable kv /\ len (snd kv) mod 2 = 0.

(** ** Sample files *)

Definition str_smpl : str := [115; 109; 112; 108]%N.
Definition str_fmt : str := [102; 109; 116; 32]%N.
Definition b_fmt : bytes := [x66; x6d; x74; x20].
Definition b_data : bytes := [x64; x61; x74; x61].
Definition b_smpl : bytes := [x73; x6d; x70; x6c].
Definition b_LIST : bytes := [x4c; x49; x53; x54].

(** A file with an [smpl] chunk of three bytes (and its pad byte), a [data]
    chunk of two 16-bit samples, and a last chunk cut short: its header
    announces 100 bytes and 3 follow. *)
Definition cs_smpl_data : list raw_chunk :=
  [(b_smpl, [xaa; xbb; xcc]); (b_data, [xff; x7f; x00; x80])].

Definition tail_cut : bytes := b_LIST ++ u32_bytes 100 ++ [x01; x02; x03].

Definition wav_cut : bytes := header 43 ++ stream cs_smpl_data ++ tail_cut.

(** A file with two [smpl] chunks. *)
Definition cs_dup : list raw_chunk :=
  [(b_smpl, [x01; x02]); (b_data, [x10; x00]); (b_smpl, [x03; x04; x05; x06])].

Definition wav_dup : bytes := header 38 ++ stream cs_dup.

(** A file with two chunks of identifier [ff 41 42 43] and then one of
    identifier [fe 41 42 43]. *)
Definition cs_dup_bin : list raw_chunk :=
  [([xff; x41; x42; x43], [x01; x01]); ([xff; x41; x42; x43], [x02; x02]);
   ([xfe; x41; x42; x43], [x03; x03])].

Definition wav_dup_bin : bytes := header 34 ++ stream cs_dup_bin.

(** A file whose only chunk has an identifier that is not ASCII. *)
Definition cs_bin_id : list raw_chunk := [([xff; x41; x42; x43], [x01; x02])].

Definition wav_bin_id : bytes := header 14 ++ stream cs_bin_id.

(** A chunk dictionary with a format chunk, loop metadata and four 16-bit
    samples. *)
Definition fmt_pcm16 : bytes :=
  [x01; x00; x01; x00; x44; xac; x00; x00; x88; x58; x01; x00; x02; x00; x10; x00].

Definition chunks_fmt_smpl_data : dict :=
  [(str_fmt, fmt_pcm16); (str_smpl, [xde; xad; xbe; xef]);
   (str_data, [x10; x27; xf0; xd8; xff; x7f; x00; x80])].

(** The same as a file, and a file of one 32-bit sample, 16777217. *)
Definition wav_pcm16 : bytes :=
  header 56 ++ stream [(b_fmt, fmt_pcm16); (b_smpl, [xde; xad; xbe; xef]);
                       (b_data, [x10; x27; xf0; xd8; xff; x7f; x00; x80])].

Definition fmt_pcm32 : bytes :=
  [x01; x00; x01; x00; x44; xac; x00; x00; x10; xb1; x02; x00; x04; x00; x20; x00].

Definition wav_pcm32 : bytes :=
  header 40 ++ stream [(b_fmt, fmt_pcm32); (b_data, [x01; x00; x00; x01])].

(** ** The transform of one sample

    [gain_frames] works on whole arrays; [gain_sample] is what these array
    operations do to one element, see [gain_frames_samples]. *)

Definition dtype_of_width (w : Z) : dtype :=
  if w =? 1 then uint8 else if w =? 2 then int16 else int32.

Definition gain_sample (P : platform) (w : Z) (factor : f32) (z : Z) : Z :=
  let x := if w =? 1 then f32_sub (f32_of_Z z) (f32_of_Z 128) else f32_of_Z z in
  let x := f32_mul x factor in
  let max_val := 2 ^ (8 * w - 1) - 1 in
  let min_val := - max_val - 1 in
  let y := astype P (dtype_of_width w)
             (f32_clip x (f32_of_Z min_val) (f32_of_Z max_val)) in
  if w =? 1 then wrap uint8 (y + 128) else y.

(** The 256 bytes, to check a property of samples by enumeration. *)
Definition all_bytes : list byte :=
  map (fun n => byte_of_Z (Z.of_nat n)) (seq 0 256).

Definition bytes_eqb (a b : bytes) : bool :=
  if list_eq_dec Byte.byte_eq_dec a b then true else false.

(** Does a 16-bit sample come back as its own two bytes at factor 1, with a
    cast that stays in range? *)
Definition unit_gain_int16_check (b0 b1 : byte) : bool :=
  let z := signed 16 (Z_of_byte b0 + 256 * Z_of_byte b1) in
  let x := f32_clip (f32_mul (f32_of_Z z) f32_one)
             (f32_of_Z (-32768)) (f32_of_Z 32767) in
  match f32_trunc x with
  | Some y => in_dtype int16 y && bytes_eqb (item_bytes int16 y) [b0; b1]
  | None => false
  end.

(** ** Further notions used to state properties *)

(** A chunk as the writer lays it out: no pad byte. *)
Definition chunk_nopad (c : raw_chunk) : bytes :=
  fst c ++ u32_bytes (len (snd c)) ++ snd c.

Definition odd_payload (c : raw_chunk) : bool := len (snd c) mod 2 =? 1.

Definition even_payload (c : raw_chunk) : Prop := len (snd c) mod 2 = 0.

(** The dictionary entry a chunk of the stream is read as. *)
Definition item_of_raw (c : raw_chunk) : str * bytes :=
  (decode_ascii_replace (fst c), snd c).

(** What the reader guarantees of every entry it returns for the buffer
    [data]: a key of four characters and a payload, shorter than [2^32],
    that is a slice of [data] after the header. *)
Definition chunk_ok (data : bytes) (kv : str * bytes) : Prop :=
  len (fst kv) = 4 /\ len (snd kv) < 2 ^ 32 /\
  exists pos, 20 <= pos /\ pos + len (snd kv) <= len data /\
              snd kv = slice pos (pos + len (snd kv)) data.

(** The keys of a list in the order of their first occurrence, given the
    keys [seen] so far. *)
Fixpoint uniq_first (seen : list str) (l : list str) : list str :=
  match l with
  | [] => []
  | k :: l' =>
      if existsb (str_eqb k) seen then uniq_first seen l'
      else k :: uniq_first (seen ++ [k]) l'
  end.

Definition f32_is_finite (x : f32) : bool :=
  match x with S754_zero _ | S754_finite _ _ _ => true | _ => false end.


(** The value a 16-bit sample takes under hard clipping, and the check that
    the transform at factor 2 gives it for the sample of two given bytes. *)
Definition clamp16 (z : Z) : Z := Z.max (-32768) (Z.min 32767 z).

Definition double_gain_int16_check (b0 b1 : byte) : bool :=
  let z := signed 16 (Z_of_byte b0 + 256 * Z_of_byte b1) in
  let x := f32_clip (f32_mul (f32_of_Z z) f32_two)
             (f32_of_Z (-32768)) (f32_of_Z 32767) in
  match f32_trunc x with
  | Some y => in_dtype int16 y && (y =? clamp16 (2 * z))
  | None => false
  end.

(** ** The function with its two library calls

    [reduce_volume] above takes the sample width and the factor as given.
    In the source the width comes from [wave.open] (lines 67-72), which can
    raise, and the factor from [10 ** (db_change / 20)] (line 96), which
    raises [OverflowError] when the power is too large.  Neither library is
    part of the repository: what each call returns or raises is a field of
    the environment. *)

Definition f64 := spec_float.

Record environment : Type := {
  (* lines 67-72: [getsampwidth()] of the file, or what [wave.open] raises *)
  wave_sampwidth : bytes -> result Z;
  (* line 96: [10 ** (db_change / 20)], or the exception it raises *)
  pow10_db : f64 -> result f64
}.

(** The conversion of the Python float to the [float32] in which
    [audio_data *= volume_change_factor] multiplies: to the nearest, ties to
    even, and to an infinity beyond the range. *)
Definition f32_of_f64 (x : f64) : f32 :=
  match x with
  | S754_finite s m e => binary_round 24 128 s m e
  | _ => x
  end.

(** Lines 82-112, line 96 included.  The payload is converted to an array
    (lines 82-93) before the factor is computed. *)
Definition gain_frames_db (E : environment) (P : platform) (sampwidth : Z)
  (db_change : f64) (audio_frames : bytes) : result bytes :=
  '(dt, audio_data) <-
    (if sampwidth =? 1 then
       a <- frombuffer uint8 audio_frames ;;
       Ok (uint8, map (fun z => f32_sub (f32_of_Z z) (f32_of_Z 128)) a)
     else if sampwidth =? 2 then
       a <- frombuffer int16 audio_frames ;;
       Ok (int16, map f32_of_Z a)
     else if sampwidth =? 4 then
       a <- frombuffer int32 audio_frames ;;
       Ok (int32, map f32_of_Z a)
     else Raise (ValueError_unsupported_width sampwidth)) ;;
  volume_change_factor <- pow10_db E db_change ;;
  let factor := f32_of_f64 volume_change_factor in
  let audio_data := map (fun x => f32_mul x factor) audio_data in
  let max_val := 2 ^ (8 * sampwidth - 1) - 1 in
  let min_val := - max_val - 1 in
  let audio_data :=
    map (fun x => f32_clip x (f32_of_Z min_val) (f32_of_Z max_val)) audio_data in
  let audio_data := map (astype P dt) audio_data in
  let audio_data :=
    if sampwidth =? 1 then map (fun z => wrap uint8 (z + 128)) audio_data
    else audio_data in
  Ok (tobytes dt audio_data).

(** Lines 56-121: the bytes of the input file and [db_change] to the bytes
    of the output file. *)
Definition reduce_volume_file (E : environment) (P : platform) (data : bytes)
  (db_change : f64) : result bytes :=
  '(chunks, original_size) <- read_wav_chunks data ;;
  match dict_get str_data chunks with
  | None => Raise ValueError_data_not_found
  | Some audio_frames =>
      sampwidth <- wave_sampwidth E data ;;
      new_frames <- gain_frames_db E P sampwidth db_change audio_frames ;;
      let chunks := dict_set str_data new_frames chunks in
      new_size <-
        match dict_get str_data chunks with
        | Some d => Ok (original_size - len d + len new_frames)
        | None => Raise KeyError
        end ;;
      write_wav_chunks chunks new_size
  end.

(** The floats 0.0 and 1.0, and one environment, for the examples, which
    are all at [db_change = 0]: [wave] reports 16-bit samples and line 96 is
    [10 ** 0.0 = 1.0].  It is not a model of the C library: at the other
    values of [db_change], which no example uses, it has the outcome of a
    power that is too large.  The theorems hold for every environment. *)
Definition f64_zero : f64 := S754_zero false.
Definition f64_one : f64 := binary_normalize 53 1024 1 0 false.

Definition env_16bit_0dB : environment :=
  {| wave_sampwidth := fun _ => Ok 2;
     pow10_db := fun db =>
       match db with
       | S754_zero _ => Ok f64_one
       | _ => Raise OverflowError
       end |}.

(** * Properties *)

(** ** Bytes and 32-bit integers *)

Lemma Ok_inj {A : Type} (a b : A) : Ok a = Ok b -> a = b.
Proof. congruence. Qed.

Lemma Z_of_byte_range (b : byte) : 0 <= Z_of_byte b < 256.
Proof.
  unfold Z_of_byte. pose proof (Byte.to_N_bounded b). lia.
Qed.

Lemma byte_of_Z_of_byte (b : byte) : byte_of_Z (Z_of_byte b) = b.
Proof.
  unfold byte_of_Z. pose proof (Z_of_byte_range b) as Hb.
  rewrite Z.mod_small by lia. unfold Z_of_byte.
  rewrite N2Z.id, Byte.of_to_N. reflexivity.
Qed.

Lemma Z_of_byte_of_Z (z : Z) : Z_of_byte (byte_of_Z z) = z mod 256.
Proof.
  unfold byte_of_Z, Z_of_byte.
  pose proof (Z.mod_pos_bound z 256 ltac:(lia)) as Hm.
  destruct (Byte.of_N (Z.to_N (z mod 256))) as [b|] eqn:E.
  - apply Byte.to_of_N in E. rewrite E. lia.
  - apply Byte.of_N_None_iff in E. lia.
Qed.

Lemma len_app {A : Type} (l1 l2 : list A) : len (l1 ++ l2) = len l1 + len l2.
Proof. unfold len. rewrite length_app. lia. Qed.

Lemma len_nonneg {A : Type} (l : list A) : 0 <= len l.
Proof. unfold len. lia. Qed.

Lemma len_map {A B : Type} (f : A -> B) (l : list A) : len (map f l) = len l.
Proof. unfold len. rewrite length_map. reflexivity. Qed.

Lemma len_cons {A : Type} (a : A) (l : list A) : len (a :: l) = 1 + len l.
Proof. unfold len. cbn [length]. lia. Qed.

Lemma pack_u32_len (n : Z) (bs : bytes) : pack_u32 n = Ok bs -> len bs = 4.
Proof.
  unfold pack_u32. destruct (_ && _); [|discriminate].
  intros [= <-]. reflexivity.
Qed.

Lemma pack_u32_ok (n : Z) : 0 <= n < 2 ^ 32 -> pack_u32 n = Ok (u32_bytes n).
Proof.
  intros Hn. unfold pack_u32.
  replace ((0 <=? n) && (n <? 2 ^ 32)) with true
    by (symmetry; apply andb_true_iff; lia).
  reflexivity.
Qed.

Lemma pack_u32_inv (n : Z) (bs : bytes) :
  pack_u32 n = Ok bs -> 0 <= n < 2 ^ 32 /\ bs = u32_bytes n.
Proof.
  unfold pack_u32. destruct ((0 <=? n) && (n <? 2 ^ 32)) eqn:E; [|discriminate].
  apply andb_true_iff in E. destruct E as [E1 E2].
  apply Z.leb_le in E1. apply Z.ltb_lt in E2.
  intros H. apply Ok_inj in H. auto.
Qed.

Lemma unpack_pack_u32 (n : Z) (bs : bytes) :
  pack_u32 n = Ok bs -> unpack_u32 bs = Ok n.
Proof.
  unfold pack_u32.
  destruct ((0 <=? n) && (n <? 2 ^ 32)) eqn:E; [|discriminate].
  apply andb_true_iff in E. destruct E as [E1 E2].
  apply Z.leb_le in E1. apply Z.ltb_lt in E2.
  intros H. apply Ok_inj in H. subst bs.
  unfold u32_bytes. cbn [unpack_u32]. rewrite !Z_of_byte_of_Z. f_equal.
  change (2 ^ 32) with 4294967296 in E2.
  pose proof (Z.div_mod n 256 ltac:(lia)) as H0.
  pose proof (Z.mod_pos_bound n 256 ltac:(lia)) as B0.
  pose proof (Z.div_mod (n / 256) 256 ltac:(lia)) as H1.
  pose proof (Z.mod_pos_bound (n / 256) 256 ltac:(lia)) as B1.
  pose proof (Z.div_mod (n / 256 / 256) 256 ltac:(lia)) as H2.
  pose proof (Z.mod_pos_bound (n / 256 / 256) 256 ltac:(lia)) as B2.
  replace (n / 65536) with (n / 256 / 256)
    by (rewrite Z.div_div by lia; reflexivity).
  replace (n / 16777216) with (n / 256 / 256 / 256)
    by (rewrite !Z.div_div by lia; reflexivity).
  assert (0 <= n / 256 / 256 / 256 < 256).
  { split; [repeat apply Z.div_pos; lia|].
    repeat (apply Z.div_lt_upper_bound; [lia|]). lia. }
  rewrite (Z.mod_small (n / 256 / 256 / 256)) by lia. lia.
Qed.

Lemma unpack_u32_range (bs : bytes) (n : Z) :
  unpack_u32 bs = Ok n -> 0 <= n < 2 ^ 32.
Proof.
  destruct bs as [|b0 [|b1 [|b2 [|b3 [|? ?]]]]]; try discriminate.
  intros H. apply Ok_inj in H. subst n.
  pose proof (Z_of_byte_range b0). pose proof (Z_of_byte_range b1).
  pose proof (Z_of_byte_range b2). pose proof (Z_of_byte_range b3).
  change (2 ^ 32) with 4294967296. lia.
Qed.

Lemma pack_unpack_u32 (bs : bytes) (n : Z) :
  unpack_u32 bs = Ok n -> pack_u32 n = Ok bs.
Proof.
  intros H. pose proof (unpack_u32_range _ _ H) as R.
  destruct bs as [|b0 [|b1 [|b2 [|b3 [|? ?]]]]]; try discriminate.
  apply Ok_inj in H. unfold pack_u32.
  replace ((0 <=? n) && (n <? 2 ^ 32)) with true
    by (symmetry; apply andb_true_iff; lia).
  pose proof (Z_of_byte_range b0). pose proof (Z_of_byte_range b1).
  pose proof (Z_of_byte_range b2). pose proof (Z_of_byte_range b3).
  assert (E0 : n mod 256 = Z_of_byte b0).
  { symmetry. apply (Z.mod_unique_pos n 256 (Z_of_byte b1 + 256 * Z_of_byte b2 + 65536 * Z_of_byte b3)); lia. }
  assert (D0 : n / 256 = Z_of_byte b1 + 256 * Z_of_byte b2 + 65536 * Z_of_byte b3).
  { symmetry. apply (Z.div_unique_pos n 256 _ (Z_of_byte b0)); lia. }
  assert (D1 : n / 65536 = Z_of_byte b2 + 256 * Z_of_byte b3).
  { symmetry. apply (Z.div_unique_pos n 65536 _ (Z_of_byte b0 + 256 * Z_of_byte b1)); lia. }
  assert (D2 : n / 16777216 = Z_of_byte b3).
  { symmetry. apply (Z.div_unique_pos n 16777216 _ (Z_of_byte b0 + 256 * Z_of_byte b1 + 65536 * Z_of_byte b2)); lia. }
  assert (E1 : (n / 256) mod 256 = Z_of_byte b1).
  { rewrite D0. symmetry. apply (Z.mod_unique_pos _ 256 (Z_of_byte b2 + 256 * Z_of_byte b3)); lia. }
  assert (E2 : (n / 65536) mod 256 = Z_of_byte b2).
  { rewrite D1. symmetry. apply (Z.mod_unique_pos _ 256 (Z_of_byte b3)); lia. }
  assert (E3 : (n / 16777216) mod 256 = Z_of_byte b3).
  { rewrite D2. apply Z.mod_small. lia. }
  assert (F : forall z b, z mod 256 = Z_of_byte b -> byte_of_Z z = b).
  { intros z b Hz. unfold byte_of_Z. rewrite Hz. unfold Z_of_byte.
    rewrite N2Z.id, Byte.of_to_N. reflexivity. }
  unfold u32_bytes.
  rewrite (F _ _ E0), (F _ _ E1), (F _ _ E2), (F _ _ E3). reflexivity.
Qed.

(** ** Slices *)

Lemma slice_app_mid {A : Type} (pre x rest : list A) (a b : Z) :
  a = len pre -> b = len pre + len x -> slice a b (pre ++ x ++ rest) = x.
Proof.
  intros -> ->. unfold slice, len.
  replace (Z.of_nat (length pre) + Z.of_nat (length x) - Z.of_nat (length pre))
    with (Z.of_nat (length x)) by lia.
  rewrite !Nat2Z.id.
  rewrite skipn_app, skipn_all, Nat.sub_diag. cbn [skipn app].
  rewrite firstn_app, firstn_all, Nat.sub_diag. cbn [firstn].
  apply app_nil_r.
Qed.

Lemma slice_length {A : Type} (a b : Z) (l : list A) :
  0 <= a -> a <= b -> b <= len l -> len (slice a b l) = b - a.
Proof.
  intros Ha Hab Hb. unfold slice, len in *.
  rewrite length_firstn, length_skipn. lia.
Qed.

Lemma unpack_u32_slice (data : bytes) (pos : Z) :
  0 <= pos -> pos + 4 <= len data ->
  exists n, unpack_u32 (slice pos (pos + 4) data) = Ok n.
Proof.
  intros Hp Hl.
  pose proof (slice_length pos (pos + 4) data Hp ltac:(lia) Hl) as L.
  unfold len in L.
  destruct (slice pos (pos + 4) data) as [|b0 [|b1 [|b2 [|b3 [|? ?]]]]];
    cbn [length] in L; try lia.
  eexists. reflexivity.
Qed.

(** ** Strings and dictionaries *)

Lemma str_eqb_eq (s t : str) : str_eqb s t = true <-> s = t.
Proof.
  revert t. induction s as [|c s IH]; intros [|d t]; cbn; try easy.
  rewrite andb_true_iff, N.eqb_eq, IH. split.
  - intros [-> ->]. reflexivity.
  - intros [= -> ->]. auto.
Qed.

Lemma str_eqb_refl (s : str) : str_eqb s s = true.
Proof. apply str_eqb_eq. reflexivity. Qed.

Lemma str_eqb_neq (s t : str) : str_eqb s t = false <-> s <> t.
Proof.
  rewrite <- str_eqb_eq. destruct (str_eqb s t); split; congruence.
Qed.

Lemma dict_get_set_same (k : str) (v : bytes) (d : dict) :
  dict_get k (dict_set k v d) = Some v.
Proof.
  induction d as [|[k' v'] d IH]; cbn.
  - rewrite str_eqb_refl. reflexivity.
  - destruct (str_eqb k k') eqn:E; cbn; rewrite E; auto.
Qed.

Lemma dict_get_set_other (k k' : str) (v : bytes) (d : dict) :
  k' <> k -> dict_get k' (dict_set k v d) = dict_get k' d.
Proof.
  intros Hk. induction d as [|[k0 v0] d IH]; cbn.
  - apply str_eqb_neq in Hk. rewrite Hk. reflexivity.
  - destruct (str_eqb k k0) eqn:E; cbn.
    + apply str_eqb_eq in E. subst k0.
      apply str_eqb_neq in Hk. rewrite Hk. reflexivity.
    + rewrite IH. reflexivity.
Qed.

Lemma dict_keys_set_present (k : str) (v v0 : bytes) (d : dict) :
  dict_get k d = Some v0 -> dict_keys (dict_set k v d) = dict_keys d.
Proof.
  induction d as [|[k' v'] d IH]; cbn; [discriminate|].
  destruct (str_eqb k k') eqn:E; cbn; [reflexivity|].
  intros H. f_equal. apply IH, H.
Qed.

Lemma dict_get_None_keys (k : str) (d : dict) :
  dict_get k d = None <-> ~ In k (dict_keys d).
Proof.
  induction d as [|[k' v'] d IH]; cbn; [tauto|].
  destruct (str_eqb k k') eqn:E.
  - apply str_eqb_eq in E. subst. split; [discriminate|tauto].
  - apply str_eqb_neq in E. rewrite IH. split.
    + intros H [H'|H']; [symmetry in H'|]; contradiction.
    + intros H H'. apply H. right. exact H'.
Qed.

Lemma dict_keys_set_absent (k : str) (v : bytes) (d : dict) :
  dict_get k d = None -> dict_keys (dict_set k v d) = dict_keys d ++ [k].
Proof.
  induction d as [|[k' v'] d IH]; cbn; [reflexivity|].
  destruct (str_eqb k k') eqn:E; cbn; [discriminate|].
  intros H. f_equal. apply IH, H.
Qed.

Lemma dict_set_NoDup (k : str) (v : bytes) (d : dict) :
  NoDup (dict_keys d) -> NoDup (dict_keys (dict_set k v d)).
Proof.
  intros H. destruct (dict_get k d) as [v0|] eqn:E.
  - rewrite (dict_keys_set_present k v v0 d E). exact H.
  - rewrite (dict_keys_set_absent k v d E).
    apply dict_get_None_keys in E.
    apply NoDup_app; [exact H | repeat constructor; intros [] | ].
    intros a Ha [<-|[]]. contradiction.
Qed.

(** ** The chunk loop *)

(** The loop always ends: one unit of fuel per 8 bytes left is enough. *)
Lemma chunk_loop_total (fuel : nat) :
  forall (data : bytes) (pos : Z) (acc : dict),
    0 <= pos -> len data - pos < 8 * Z.of_nat (S fuel) ->
    exists d, chunk_loop (S fuel) data pos acc = Ok d.
Proof.
  induction fuel as [|fuel IH]; intros data pos acc Hpos Hfuel.
  - cbn [chunk_loop]. destruct (pos + 8 <=? len data) eqn:E.
    + apply Z.leb_le in E. lia.
    + eexists. reflexivity.
  - remember (S fuel) as f eqn:Ef. cbn [chunk_loop].
    destruct (pos + 8 <=? len data) eqn:E; [|eexists; reflexivity].
    apply Z.leb_le in E.
    replace (pos + 8) with (pos + 4 + 4) at 1 by lia.
    destruct (unpack_u32_slice data (pos + 4) ltac:(lia) ltac:(lia)) as [n Hn].
    replace (pos + 4 + 4) with (pos + 8) in * by lia.
    rewrite Hn. cbn [bind].
    pose proof (unpack_u32_range _ _ Hn) as Rn.
    destruct (pos + 8 + n >? len data) eqn:E2; [eexists; reflexivity|].
    subst f. apply IH.
    + destruct (n mod 2 =? 1); lia.
    + destruct (n mod 2 =? 1); lia.
Qed.

Lemma chunk_loop_stop_short (fuel : nat) (data : bytes) (pos : Z) (acc : dict) :
  len data < pos + 8 -> chunk_loop (S fuel) data pos acc = Ok acc.
Proof.
  intros H. cbn [chunk_loop].
  destruct (pos + 8 <=? len data) eqn:E; [apply Z.leb_le in E; lia|reflexivity].
Qed.

Lemma chunk_loop_stop_overrun (fuel : nat) (data : bytes) (pos n : Z) (acc : dict) :
  unpack_u32 (slice (pos + 4) (pos + 8) data) = Ok n ->
  len data < pos + 8 + n ->
  chunk_loop (S fuel) data pos acc = Ok acc.
Proof.
  intros Hn H. cbn [chunk_loop].
  destruct (pos + 8 <=? len data) eqn:E; [|reflexivity].
  rewrite Hn. cbn [bind].
  destruct (pos + 8 + n >? len data) eqn:E2; [reflexivity|].
  rewrite Z.gtb_ltb in E2. apply Z.ltb_ge in E2. lia.
Qed.

Lemma slice_app_skip {A : Type} (pre l : list A) (a b : Z) :
  0 <= a -> slice (len pre + a) (len pre + b) (pre ++ l) = slice a b l.
Proof.
  intros Ha. unfold slice, len.
  replace (Z.of_nat (length pre) + b - (Z.of_nat (length pre) + a)) with (b - a) by lia.
  f_equal. rewrite Z2Nat.inj_add, Nat2Z.id by lia.
  rewrite skipn_app.
  replace (length pre + Z.to_nat a - length pre)%nat with (Z.to_nat a) by lia.
  rewrite (skipn_all2 pre) by lia. reflexivity.
Qed.

Lemma pad_of_len (p : bytes) :
  len (pad_of p) = if len p mod 2 =? 1 then 1 else 0.
Proof. unfold pad_of. destruct (len p mod 2 =? 1); reflexivity. Qed.

Lemma u32_bytes_len (n : Z) : len (u32_bytes n) = 4.
Proof. reflexivity. Qed.

(** One iteration on a complete chunk. *)
Lemma chunk_loop_step (fuel : nat) (pre rest : bytes) (c : raw_chunk) (acc : dict) :
  well_formed c ->
  chunk_loop (S fuel) (pre ++ chunk_bytes c ++ rest) (len pre) acc =
  chunk_loop fuel (pre ++ chunk_bytes c ++ rest) (len (pre ++ chunk_bytes c))
    (add_chunk acc c).
Proof.
  destruct c as [id p]. intros [Hid Hp]. cbn [fst snd] in *.
  pose proof (len_nonneg p) as Hp0.
  unfold chunk_bytes. cbn [fst snd].
  set (data := pre ++ (id ++ u32_bytes (len p) ++ p ++ pad_of p) ++ rest).
  assert (Hlen : len data = len pre + 8 + len p + len (pad_of p) + len rest).
  { unfold data. rewrite !len_app, u32_bytes_len. lia. }
  pose proof (len_nonneg rest) as Hr. pose proof (len_nonneg (pad_of p)) as Hpad.
  cbn [chunk_loop].
  replace (len pre + 8 <=? len data) with true by (symmetry; apply Z.leb_le; lia).
  assert (E1 : slice (len pre) (len pre + 4) data = id).
  { unfold data. rewrite <- app_assoc.
    apply slice_app_mid; [reflexivity | lia]. }
  assert (E2 : slice (len pre + 4) (len pre + 8) data = u32_bytes (len p)).
  { unfold data.
    replace (pre ++ (id ++ u32_bytes (len p) ++ p ++ pad_of p) ++ rest)
      with ((pre ++ id) ++ u32_bytes (len p) ++ (p ++ pad_of p ++ rest))
      by (rewrite <- !app_assoc; reflexivity).
    apply slice_app_mid; rewrite len_app; [lia | rewrite u32_bytes_len; lia]. }
  assert (E3 : slice (len pre + 8) (len pre + 8 + len p) data = p).
  { unfold data.
    replace (pre ++ (id ++ u32_bytes (len p) ++ p ++ pad_of p) ++ rest)
      with ((pre ++ id ++ u32_bytes (len p)) ++ p ++ (pad_of p ++ rest))
      by (rewrite <- !app_assoc; reflexivity).
    apply slice_app_mid; rewrite !len_app, u32_bytes_len; lia. }
  rewrite E1, E2.
  rewrite (unpack_pack_u32 (len p) _ (pack_u32_ok _ (conj Hp0 Hp))). cbn [bind].
  replace (len pre + 8 + len p >? len data) with false
    by (symmetry; rewrite Z.gtb_ltb; apply Z.ltb_ge; lia).
  rewrite E3. unfold add_chunk. cbn [fst snd].
  f_equal. rewrite !len_app, u32_bytes_len, pad_of_len.
  destruct (len p mod 2 =? 1); lia.
Qed.

(** The loop on a stream of complete chunks followed by a truncated tail
    returns the chunks of the stream. *)
Lemma chunk_loop_stream (cs : list raw_chunk) :
  forall (pre tail : bytes) (acc : dict) (fuel : nat),
    Forall well_formed cs -> truncated tail -> (length cs < fuel)%nat ->
    chunk_loop fuel (pre ++ stream cs ++ tail) (len pre) acc =
    Ok (fold_left add_chunk cs acc).
Proof.
  induction cs as [|c cs IH]; intros pre tail acc fuel Hwf Htail Hfuel.
  - destruct fuel as [|fuel]; [cbn in Hfuel; lia|]. cbn [stream flat_map app fold_left].
    destruct Htail as [Hshort | [n [Hn Hover]]].
    + apply chunk_loop_stop_short. rewrite len_app. lia.
    + apply (chunk_loop_stop_overrun _ _ _ n).
      * rewrite (slice_app_skip pre tail 4 8) by lia. exact Hn.
      * rewrite len_app. lia.
  - destruct fuel as [|fuel]; [cbn in Hfuel; lia|].
    inversion Hwf as [|? ? Hc Hcs]; subst.
    cbn [stream flat_map fold_left]. fold (stream cs).
    rewrite <- (app_assoc (chunk_bytes c)).
    rewrite chunk_loop_step by exact Hc.
    rewrite (app_assoc pre).
    apply IH; [exact Hcs | exact Htail | cbn in Hfuel; lia].
Qed.

Lemma stream_length (cs : list raw_chunk) :
  Forall well_formed cs -> 8 * len cs <= len (stream cs).
Proof.
  induction 1 as [|c cs [Hid _] _ IH]; [cbn; lia|].
  cbn [stream flat_map]. fold (stream cs). rewrite len_cons, len_app.
  unfold chunk_bytes. rewrite !len_app, u32_bytes_len.
  pose proof (len_nonneg (snd c)). pose proof (len_nonneg (pad_of (snd c))). lia.
Qed.

Lemma header_prefix (size : Z) (body : bytes) :
  0 <= size < 2 ^ 32 ->
  decode_ascii (slice 0 4 (header size ++ body)) = Ok str_RIFF /\
  unpack_u32 (slice 4 8 (header size ++ body)) = Ok size /\
  decode_ascii (slice 8 12 (header size ++ body)) = Ok str_WAVE.
Proof.
  intros Hs. split; [|split].
  - reflexivity.
  - change (unpack_u32 (u32_bytes size) = Ok size).
    apply unpack_pack_u32, pack_u32_ok, Hs.
  - reflexivity.
Qed.

(** [read_wav_chunks] on a well-formed container with a truncated tail. *)
Lemma read_wav_chunks_stream (size : Z) (cs : list raw_chunk) (tail : bytes) :
  0 <= size < 2 ^ 32 -> Forall well_formed cs -> truncated tail ->
  read_wav_chunks (header size ++ stream cs ++ tail) = Ok (dict_of cs, size).
Proof.
  intros Hs Hwf Htail. unfold read_wav_chunks.
  destruct (header_prefix size (stream cs ++ tail) Hs) as [E1 [E2 E3]].
  rewrite E1. cbn [bind]. rewrite str_eqb_refl. cbn [negb].
  rewrite E2. cbn [bind]. rewrite E3. cbn [bind]. rewrite str_eqb_refl. cbn [negb].
  change 12 with (len (header size)).
  rewrite chunk_loop_stream; [reflexivity | exact Hwf | exact Htail |].
  pose proof (stream_length cs Hwf) as L.
  rewrite !length_app. unfold len in L. lia.
Qed.

Lemma truncated_nil : truncated [].
Proof. left. reflexivity. Qed.

(** With valid tags the reader returns: nothing after the header can make it
    raise. *)
Lemma read_wav_chunks_total (data : bytes) :
  valid_tags data ->
  exists chunks size,
    read_wav_chunks data = Ok (chunks, size) /\
    unpack_u32 (slice 4 8 data) = Ok size.
Proof.
  intros [Hr Hw].
  assert (L : 12 <= len data).
  { assert (H : length (slice 8 12 data) = 4%nat) by (rewrite Hw; reflexivity).
    unfold slice in H. rewrite length_firstn, length_skipn in H.
    unfold len. lia. }
  destruct (unpack_u32_slice data 4 ltac:(lia) ltac:(lia)) as [size Hsize].
  change (4 + 4) with 8 in Hsize.
  destruct (chunk_loop_total (length data) data 12 [] ltac:(lia)) as [d Hd].
  { unfold len. lia. }
  exists d, size. split; [|exact Hsize].
  unfold read_wav_chunks. rewrite Hr, Hw, Hsize. cbn [bind].
  change (decode_ascii b_RIFF) with (Ok str_RIFF).
  change (decode_ascii b_WAVE) with (Ok str_WAVE).
  cbn [bind]. rewrite !str_eqb_refl. cbn [negb]. rewrite Hd. reflexivity.
Qed.

(** The reader and the whole of [reduce_volume] run to an end on every
    input. *)
Lemma read_wav_chunks_terminates (data : bytes) :
  read_wav_chunks data <> OutOfFuel.
Proof.
  unfold read_wav_chunks.
  destruct (decode_ascii (slice 0 4 data)) as [riff| |] eqn:E1; cbn [bind];
    try discriminate.
  - destruct (negb (str_eqb riff str_RIFF)); [discriminate|].
    destruct (unpack_u32 (slice 4 8 data)) as [size| |] eqn:E2; cbn [bind];
      try discriminate.
    + destruct (decode_ascii (slice 8 12 data)) as [wv| |] eqn:E3; cbn [bind];
        try discriminate.
      * destruct (negb (str_eqb wv str_WAVE)); [discriminate|].
        destruct (chunk_loop_total (length data) data 12 [] ltac:(lia)) as [d Hd].
        { unfold len. lia. }
        rewrite Hd. discriminate.
      * unfold decode_ascii in E3. destruct (forallb _ _); discriminate.
    + destruct (slice 4 8 data) as [|? [|? [|? [|? [|? ?]]]]]; discriminate.
  - unfold decode_ascii in E1. destruct (forallb _ _); discriminate.
Qed.

(** ** The dictionary of a stream *)

Lemma In_dict_set (kv : str * bytes) (k : str) (v : bytes) (d : dict) :
  In kv (dict_set k v d) -> kv = (k, v) \/ In kv d.
Proof.
  induction d as [|[k' v'] d IH]; cbn.
  - intros [<-|[]]. left. reflexivity.
  - destruct (str_eqb k k') eqn:E; cbn.
    + apply str_eqb_eq in E. subst k'. intros [<-|H]; auto.
    + intros [<-|H]; auto. destruct (IH H); auto.
Qed.

Lemma dict_get_In (k : str) (v : bytes) (d : dict) :
  dict_get k d = Some v -> In (k, v) d.
Proof.
  induction d as [|[k' v'] d IH]; cbn; [discriminate|].
  destruct (str_eqb k k') eqn:E.
  - apply str_eqb_eq in E. subst k'. intros [= ->]. left. reflexivity.
  - intros H. right. apply IH, H.
Qed.

Lemma In_dict_get (k : str) (v : bytes) (d : dict) :
  NoDup (dict_keys d) -> In (k, v) d -> dict_get k d = Some v.
Proof.
  induction d as [|[k' v'] d IH]; cbn; [intros _ []|].
  intros Hnd [H|H].
  - injection H as -> ->. rewrite str_eqb_refl. reflexivity.
  - inversion Hnd as [|? ? Hnotin Hnd']; subst.
    destruct (str_eqb k k') eqn:E; [|apply IH; assumption].
    apply str_eqb_eq in E. subst k'. exfalso. apply Hnotin.
    change k with (fst (k, v)). apply in_map, H.
Qed.

Lemma fold_add_chunk_NoDup (cs : list raw_chunk) :
  forall acc, NoDup (dict_keys acc) ->
    NoDup (dict_keys (fold_left add_chunk cs acc)).
Proof.
  induction cs as [|c cs IH]; intros acc H; cbn [fold_left]; [exact H|].
  apply IH. apply dict_set_NoDup, H.
Qed.

Lemma dict_of_NoDup (cs : list raw_chunk) : NoDup (dict_keys (dict_of cs)).
Proof. apply fold_add_chunk_NoDup. constructor. Qed.

Lemma fold_add_chunk_other (k : str) (cs : list raw_chunk) :
  forall acc,
    Forall (fun c => decode_ascii_replace (fst c) <> k) cs ->
    dict_get k (fold_left add_chunk cs acc) = dict_get k acc.
Proof.
  induction cs as [|c cs IH]; intros acc H; cbn [fold_left]; [reflexivity|].
  inversion H as [|? ? Hc Hcs]; subst.
  rewrite IH by exact Hcs. unfold add_chunk.
  apply dict_get_set_other. congruence.
Qed.

Lemma fold_add_chunk_app (cs1 cs2 : list raw_chunk) (acc : dict) :
  fold_left add_chunk (cs1 ++ cs2) acc =
  fold_left add_chunk cs2 (fold_left add_chunk cs1 acc).
Proof. apply fold_left_app. Qed.

(** The chunk that is last under its key is the one the dictionary holds. *)
Lemma dict_of_last (cs1 cs2 : list raw_chunk) (id p : bytes) :
  Forall (fun c => decode_ascii_replace (fst c) <> decode_ascii_replace id) cs2 ->
  dict_get (decode_ascii_replace id) (dict_of (cs1 ++ (id, p) :: cs2)) = Some p.
Proof.
  intros H. unfold dict_of. rewrite fold_add_chunk_app. cbn [fold_left].
  rewrite fold_add_chunk_other by exact H.
  unfold add_chunk. cbn [fst snd]. apply dict_get_set_same.
Qed.

(** Every entry of the dictionary is a chunk of the stream under its decoded
    identifier. *)
Lemma fold_add_chunk_entries (cs : list raw_chunk) :
  forall acc kv,
    In kv (fold_left add_chunk cs acc) ->
    In kv acc \/
    exists c, In c cs /\ kv = (decode_ascii_replace (fst c), snd c).
Proof.
  induction cs as [|c cs IH]; intros acc kv H; cbn [fold_left] in H; [auto|].
  destruct (IH _ _ H) as [H1|[c' [Hc' E]]].
  - apply In_dict_set in H1. destruct H1 as [->|H1]; [|auto].
    right. exists c. split; [left; reflexivity|reflexivity].
  - right. exists c'. split; [right; exact Hc'|exact E].
Qed.

(** On ASCII bytes decoding is exact and [encode_ascii] undoes it. *)
Lemma decode_replace_ascii (bs : bytes) :
  forallb is_ascii bs = true -> decode_ascii_replace bs = map Byte.to_N bs.
Proof.
  induction bs as [|b bs IH]; cbn; [reflexivity|].
  intros H. apply andb_true_iff in H. destruct H as [Hb Hbs].
  rewrite Hb, <- IH by exact Hbs. reflexivity.
Qed.

Lemma encode_decode_ascii (bs : bytes) :
  forallb is_ascii bs = true ->
  encode_ascii (decode_ascii_replace bs) = Ok bs.
Proof.
  intros H. rewrite decode_replace_ascii by exact H. unfold encode_ascii.
  assert (E : forallb (fun c => (c <? 128)%N) (map Byte.to_N bs) = true).
  { clear -H. induction bs as [|b bs IH]; cbn in *; [reflexivity|].
    apply andb_true_iff in H. destruct H as [Hb Hbs].
    apply andb_true_iff. split; [exact Hb|apply IH, Hbs]. }
  rewrite E. f_equal. rewrite map_map. rewrite <- (map_id bs) at 2.
  apply map_ext. intros b. apply byte_of_Z_of_byte.
Qed.

Lemma decode_replace_inj_ascii (bs bs' : bytes) :
  forallb is_ascii bs = true ->
  decode_ascii_replace bs' = decode_ascii_replace bs -> bs' = bs.
Proof.
  revert bs'. induction bs as [|b bs IH]; intros [|b' bs']; cbn; try easy.
  intros H E. apply andb_true_iff in H. destruct H as [Hb Hbs].
  rewrite Hb in E. injection E as E1 E2. f_equal; [|apply IH; assumption].
  unfold is_ascii in *. destruct (Byte.to_N b' <? 128)%N eqn:Hb'.
  - rewrite <- (byte_of_Z_of_byte b), <- (byte_of_Z_of_byte b').
    unfold Z_of_byte. rewrite E1. reflexivity.
  - apply N.ltb_lt in Hb. rewrite <- E1 in Hb. discriminate.
Qed.

(** ** The writer *)

Lemma write_items_ok (d : dict) :
  Forall writable d -> write_items d = Ok (flat_map item_layout d).
Proof.
  induction 1 as [|[k v] d [Hk Hv] _ IH]; [reflexivity|].
  cbn [write_items flat_map fst snd] in *.
  unfold encode_ascii. rewrite Hk. cbn [bind].
  rewrite pack_u32_ok by (split; [apply len_nonneg|exact Hv]). cbn [bind].
  rewrite IH. cbn [bind]. unfold item_layout. cbn [fst snd].
  rewrite <- !app_assoc. reflexivity.
Qed.

Lemma write_items_inv (d : dict) (out : bytes) :
  write_items d = Ok out -> Forall writable d /\ out = flat_map item_layout d.
Proof.
  revert out. induction d as [|[k v] d IH]; intros out; cbn [write_items].
  - intros H. apply Ok_inj in H. subst. split; [constructor|reflexivity].
  - unfold encode_ascii at 1.
    destruct (forallb (fun c => (c <? 128)%N) k) eqn:Hk; [|discriminate].
    cbn [bind]. destruct (pack_u32 (len v)) as [sb| |] eqn:Hp; try discriminate.
    cbn [bind]. destruct (write_items d) as [tl| |]; try discriminate.
    cbn [bind]. intros H. apply Ok_inj in H. subst out.
    destruct (IH tl eq_refl) as [Hd ->].
    apply pack_u32_inv in Hp. destruct Hp as [[_ Hv] ->].
    split; [constructor; [split; assumption|exact Hd]|].
    cbn [flat_map]. unfold item_layout. cbn [fst snd].
    rewrite <- !app_assoc. reflexivity.
Qed.

Lemma flat_map_In_split {A B : Type} (f : A -> list B) (a : A) (l : list A) :
  In a l -> exists pre post, flat_map f l = pre ++ f a ++ post.
Proof.
  intros H. apply in_split in H. destruct H as [l1 [l2 ->]].
  exists (flat_map f l1), (flat_map f l2).
  rewrite flat_map_app. reflexivity.
Qed.

(** ** The reader on truncated input *)

(** C5. With valid container and format tags [read_wav_chunks] returns
    normally whatever follows.  The loop stops and returns the chunks it
    has accumulated when fewer than 8 bytes are left for a chunk header, and
    when the declared payload length reaches past the end of the buffer.  So
    complete chunks followed by a truncated tail decode to exactly those
    chunks. *)
Theorem decode_tolerates_truncation (data : bytes) :
  valid_tags data ->
  (exists chunks size, read_wav_chunks data = Ok (chunks, size)) /\
  (forall fuel pos acc,
      len data < pos + 8 -> chunk_loop (S fuel) data pos acc = Ok acc) /\
  (forall fuel pos acc n,
      unpack_u32 (slice (pos + 4) (pos + 8) data) = Ok n ->
      len data < pos + 8 + n ->
      chunk_loop (S fuel) data pos acc = Ok acc) /\
  (forall size cs tail,
      0 <= size < 2 ^ 32 -> Forall well_formed cs -> truncated tail ->
      data = header size ++ stream cs ++ tail ->
      read_wav_chunks data = Ok (dict_of cs, size)).
Proof.
  intros Htags. split; [|split; [|split]].
  - destruct (read_wav_chunks_total data Htags) as [chunks [size [H _]]].
    exists chunks, size. exact H.
  - intros fuel pos acc. apply chunk_loop_stop_short.
  - intros fuel pos acc n. apply chunk_loop_stop_overrun.
  - intros size cs tail Hs Hwf Ht ->. apply read_wav_chunks_stream; assumption.
Qed.

(** A file whose last chunk announces 100 bytes and has 3. *)
Lemma decode_tolerates_truncation_witness :
  valid_tags wav_cut /\
  read_wav_chunks wav_cut =
    Ok ([(str_smpl, [xaa; xbb; xcc]); (str_data, [xff; x7f; x00; x80])], 43).
Proof.
  assert (Htags : valid_tags wav_cut) by (split; reflexivity).
  split; [exact Htags|].
  refine (proj2 (proj2 (proj2 (decode_tolerates_truncation wav_cut Htags)))
            43 cs_smpl_data tail_cut _ _ _ eq_refl).
  - split; [apply Z.leb_le|apply Z.ltb_lt]; reflexivity.
  - repeat constructor.
  - right. exists 100. split; reflexivity.
Defined.

(** ** Duplicate identifiers *)

(** C8, amended.  When two chunks of the source bytes have the same
    identifier, and the second is the last chunk under its key, the
    dictionary that [read_wav_chunks] returns holds the payload of the
    second one under that key, and no other entry under it: the last
    occurrence wins.  Being the last under the key means that no later chunk
    has an identifier that decodes to the same key; for an ASCII identifier
    that is to say that no later chunk has the same four bytes. *)
Theorem duplicate_id_last_wins
  (size : Z) (cs1 cs2 cs3 : list raw_chunk) (id p1 p2 : bytes) :
  0 <= size < 2 ^ 32 ->
  Forall well_formed (cs1 ++ (id, p1) :: cs2 ++ (id, p2) :: cs3) ->
  (forallb is_ascii id = true /\ Forall (fun c => fst c <> id) cs3) \/
  Forall (fun c => decode_ascii_replace (fst c) <> decode_ascii_replace id) cs3 ->
  exists chunks,
    read_wav_chunks (header size ++ stream (cs1 ++ (id, p1) :: cs2 ++ (id, p2) :: cs3))
      = Ok (chunks, size) /\
    dict_get (decode_ascii_replace id) chunks = Some p2 /\
    (forall v, In (decode_ascii_replace id, v) chunks -> v = p2) /\
    NoDup (dict_keys chunks).
Proof.
  intros Hs Hwf Hlast0.
  assert (Hlast : Forall (fun c => decode_ascii_replace (fst c)
                                   <> decode_ascii_replace id) cs3).
  { destruct Hlast0 as [[Ha Hne]|H]; [|exact H].
    eapply Forall_impl; [|exact Hne]. intros c Hc E. apply Hc.
    apply (decode_replace_inj_ascii id (fst c) Ha E). }
  clear Hlast0.
  set (cs := cs1 ++ (id, p1) :: cs2 ++ (id, p2) :: cs3) in *.
  exists (dict_of cs).
  assert (Hget : dict_get (decode_ascii_replace id) (dict_of cs) = Some p2).
  { unfold cs.
    replace (cs1 ++ (id, p1) :: cs2 ++ (id, p2) :: cs3)
      with ((cs1 ++ (id, p1) :: cs2) ++ (id, p2) :: cs3)
      by (rewrite <- app_assoc; reflexivity).
    apply dict_of_last, Hlast. }
  split; [|split; [exact Hget|split; [|apply dict_of_NoDup]]].
  - rewrite <- (app_nil_r (stream cs)).
    apply read_wav_chunks_stream; [exact Hs|exact Hwf|apply truncated_nil].
  - intros v Hin. apply In_dict_get in Hin; [congruence|apply dict_of_NoDup].
Qed.

(** Two [smpl] chunks around a [data] chunk: the second payload is kept. *)
Lemma duplicate_id_last_wins_witness :
  exists chunks,
    read_wav_chunks wav_dup = Ok (chunks, 38) /\
    dict_get str_smpl chunks = Some [x03; x04; x05; x06] /\
    (forall v, In (str_smpl, v) chunks -> v = [x03; x04; x05; x06]) /\
    NoDup (dict_keys chunks).
Proof.
  apply (duplicate_id_last_wins 38 [] [(b_data, [x10; x00])] [] b_smpl
           [x01; x02] [x03; x04; x05; x06]).
  - split; [apply Z.leb_le|apply Z.ltb_lt]; reflexivity.
  - repeat constructor.
  - left. split; [reflexivity|constructor].
Defined.

(** C8, against the specification as written.  The second chunk of
    [wav_dup_bin] is the last with the identifier [ff 41 42 43], yet its
    payload does not survive: the third chunk, of identifier [fe 41 42 43],
    is read under the same key U+FFFD "ABC" and its payload replaces it. *)
Lemma duplicate_binary_id_overwritten :
  wav_dup_bin
    = header 34 ++ stream ([] ++ ([xff; x41; x42; x43], [x01; x01])
                           :: [] ++ ([xff; x41; x42; x43], [x02; x02])
                           :: [([xfe; x41; x42; x43], [x03; x03])]) /\
  Forall well_formed cs_dup_bin /\
  Forall (fun c => fst c <> [xff; x41; x42; x43])
    [([xfe; x41; x42; x43], [x03; x03])] /\
  read_wav_chunks wav_dup_bin
    = Ok ([([65533; 65; 66; 67]%N, [x03; x03])], 34) /\
  decode_ascii_replace [xff; x41; x42; x43] = [65533; 65; 66; 67]%N /\
  [x03; x03] <> [x02; x02].
Proof.
  split; [reflexivity|].
  split; [repeat constructor|].
  split; [repeat constructor; discriminate|].
  split; [reflexivity|]. split; [reflexivity|discriminate].
Qed.

(** ** Identifiers that are not text *)

Lemma decode_replace_encodable (bs : bytes) :
  forallb is_ascii bs = true ->
  forallb (fun c => (c <? 128)%N) (decode_ascii_replace bs) = true /\
  map (fun c => byte_of_Z (Z.of_N c)) (decode_ascii_replace bs) = bs.
Proof.
  intros H. pose proof (encode_decode_ascii bs H) as E.
  unfold encode_ascii in E.
  destruct (forallb (fun c => (c <? 128)%N) (decode_ascii_replace bs));
    [|discriminate].
  apply Ok_inj in E. auto.
Qed.

Lemma dict_of_writable (cs : list raw_chunk) :
  Forall well_formed cs ->
  Forall (fun c => forallb is_ascii (fst c) = true) cs ->
  Forall writable (dict_of cs).
Proof.
  intros Hwf Hascii. apply Forall_forall. intros kv Hin.
  apply fold_add_chunk_entries in Hin. destruct Hin as [[]|[c [Hc ->]]].
  rewrite Forall_forall in Hwf, Hascii.
  split; cbn [fst snd].
  - apply decode_replace_encodable, Hascii, Hc.
  - apply Hwf, Hc.
Qed.

(** C2, amended.  Whatever the four identifier bytes are,
    [read_wav_chunks] returns; the key it stores is the identifier with every
    byte above 127 replaced by U+FFFD, and the last chunk under a key is
    found there with its payload.  When all identifiers of the file are
    ASCII, [write_wav_chunks] then emits that chunk with the identifier, the
    length and the payload it had. *)
Theorem ascii_chunk_survives_decode_encode
  (size : Z) (cs1 cs2 : list raw_chunk) (id p : bytes) :
  0 <= size < 2 ^ 32 ->
  Forall well_formed (cs1 ++ (id, p) :: cs2) ->
  Forall (fun c => decode_ascii_replace (fst c) <> decode_ascii_replace id) cs2 ->
  exists chunks,
    read_wav_chunks (header size ++ stream (cs1 ++ (id, p) :: cs2))
      = Ok (chunks, size) /\
    dict_get (decode_ascii_replace id) chunks = Some p /\
    (Forall (fun c => forallb is_ascii (fst c) = true) (cs1 ++ (id, p) :: cs2) ->
     exists pre post,
       write_wav_chunks chunks size
         = Ok (pre ++ (id ++ u32_bytes (len p) ++ p) ++ post)).
Proof.
  intros Hs Hwf Hlast. set (cs := cs1 ++ (id, p) :: cs2) in *.
  exists (dict_of cs).
  assert (Hget : dict_get (decode_ascii_replace id) (dict_of cs) = Some p)
    by (apply dict_of_last, Hlast).
  split; [|split; [exact Hget|]].
  - rewrite <- (app_nil_r (stream cs)).
    apply read_wav_chunks_stream; [exact Hs|exact Hwf|apply truncated_nil].
  - intros Hascii.
    pose proof (dict_of_writable cs Hwf Hascii) as Hw.
    apply dict_get_In in Hget.
    destruct (flat_map_In_split item_layout _ _ Hget) as [pre [post E]].
    exists (b_RIFF ++ u32_bytes size ++ b_WAVE ++ pre), post.
    unfold write_wav_chunks. rewrite (pack_u32_ok size Hs). cbn [bind].
    rewrite (write_items_ok _ Hw). cbn [bind]. rewrite E.
    unfold item_layout. cbn [fst snd].
    assert (Hid : forallb is_ascii id = true).
    { rewrite Forall_forall in Hascii. apply (Hascii (id, p)).
      unfold cs. apply in_or_app. right. left. reflexivity. }
    rewrite (proj2 (decode_replace_encodable id Hid)).
    rewrite <- !app_assoc. reflexivity.
Qed.

(** The file [wav_dup] through the reader and the writer: the [data] chunk is
    in the output as it was in the input. *)
Lemma ascii_chunk_survives_decode_encode_witness :
  exists chunks,
    read_wav_chunks wav_dup = Ok (chunks, 38) /\
    dict_get str_data chunks = Some [x10; x00] /\
    exists pre post,
      write_wav_chunks chunks 38
        = Ok (pre ++ (b_data ++ u32_bytes 2 ++ [x10; x00]) ++ post).
Proof.
  destruct (ascii_chunk_survives_decode_encode 38 [(b_smpl, [x01; x02])]
              [(b_smpl, [x03; x04; x05; x06])] b_data [x10; x00])
    as [chunks [H1 [H2 H3]]].
  - split; [apply Z.leb_le|apply Z.ltb_lt]; reflexivity.
  - repeat constructor.
  - repeat constructor. discriminate.
  - exists chunks. split; [exact H1|]. split; [exact H2|].
    apply H3. repeat constructor.
Defined.

(** C2, against the specification as written.  The identifier
    [ff 41 42 43] is read as the key U+FFFD "ABC", not as its four bytes, and
    the writer raises [UnicodeEncodeError] on that key: the chunk does not
    come back. *)
Lemma binary_id_does_not_survive :
  read_wav_chunks wav_bin_id = Ok ([([65533; 65; 66; 67]%N, [x01; x02])], 14) /\
  write_wav_chunks [([65533; 65; 66; 67]%N, [x01; x02])] 14
    = Raise UnicodeEncodeError.
Proof. split; reflexivity. Qed.

(** ** Reading back what was written *)

Lemma dict_set_absent (k : str) (v : bytes) (d : dict) :
  ~ In k (dict_keys d) -> dict_set k v d = d ++ [(k, v)].
Proof.
  induction d as [|[k' v'] d IH]; cbn; [reflexivity|].
  intros H. destruct (str_eqb k k') eqn:E.
  - apply str_eqb_eq in E. subst k'. exfalso. apply H. left. reflexivity.
  - rewrite IH; [reflexivity|]. intros H'. apply H. right. exact H'.
Qed.

Lemma decode_encode_ascii (k : str) :
  forallb (fun c => (c <? 128)%N) k = true ->
  decode_ascii_replace (map (fun c => byte_of_Z (Z.of_N c)) k) = k.
Proof.
  unfold decode_ascii_replace.
  induction k as [|c k IH]; cbn [map forallb]; [reflexivity|].
  intros H. apply andb_true_iff in H. destruct H as [Hc Hk].
  rewrite IH by exact Hk. f_equal.
  apply N.ltb_lt in Hc.
  assert (E : Byte.to_N (byte_of_Z (Z.of_N c)) = c).
  { apply N2Z.inj. change (Z.of_N (Byte.to_N (byte_of_Z (Z.of_N c))))
      with (Z_of_byte (byte_of_Z (Z.of_N c))).
    rewrite Z_of_byte_of_Z. apply Z.mod_small. lia. }
  unfold is_ascii. rewrite E.
  replace (c <? 128)%N with true by (symmetry; apply N.ltb_lt; exact Hc).
  reflexivity.
Qed.

(** Reading the chunks of distinct ASCII keys rebuilds the dictionary they
    were written from. *)
Lemma fold_add_chunk_raw_of_item (d : dict) :
  forall acc,
    NoDup (dict_keys (acc ++ d)) -> Forall writable d ->
    fold_left add_chunk (map raw_of_item d) acc = acc ++ d.
Proof.
  induction d as [|[k v] d IH]; intros acc Hnd Hw; cbn [map fold_left].
  - symmetry. apply app_nil_r.
  - inversion Hw as [|? ? [Hk _] Hw']; subst. cbn [fst] in Hk.
    unfold add_chunk at 2, raw_of_item at 2. cbn [fst snd].
    rewrite decode_encode_ascii by exact Hk.
    assert (Hnotin : ~ In k (dict_keys acc)).
    { unfold dict_keys in *. rewrite map_app in Hnd. cbn [map fst] in Hnd.
      apply NoDup_remove_2 in Hnd. intros H. apply Hnd.
      apply in_or_app. left. exact H. }
    rewrite dict_set_absent by exact Hnotin.
    rewrite IH; [rewrite <- app_assoc; reflexivity| |exact Hw'].
    rewrite <- app_assoc. exact Hnd.
Qed.

Lemma stream_raw_of_item (d : dict) :
  Forall even_item d -> stream (map raw_of_item d) = flat_map item_layout d.
Proof.
  induction 1 as [|[k v] d [_ [_ He]] _ IH]; [reflexivity|].
  cbn [map stream flat_map]. fold (stream (map raw_of_item d)). rewrite IH.
  f_equal. unfold chunk_bytes, raw_of_item, item_layout, pad_of. cbn [fst snd] in *.
  rewrite He. cbn [Z.eqb]. rewrite app_nil_r. reflexivity.
Qed.

(** The writer's output is read back as the same dictionary when no payload
    has an odd length. *)
Lemma read_after_write_even (d : dict) (size : Z) :
  0 <= size < 2 ^ 32 -> NoDup (dict_keys d) -> Forall even_item d ->
  (r <- write_wav_chunks d size ;; read_wav_chunks r) = Ok (d, size).
Proof.
  intros Hs Hnd He.
  assert (Hw : Forall writable d).
  { eapply Forall_impl; [|exact He]. intros kv [_ [H _]]. exact H. }
  unfold write_wav_chunks. rewrite (pack_u32_ok size Hs). cbn [bind].
  rewrite (write_items_ok d Hw). cbn [bind].
  rewrite <- (stream_raw_of_item d He).
  change (b_RIFF ++ u32_bytes size ++ b_WAVE ++ stream (map raw_of_item d))
    with ((b_RIFF ++ u32_bytes size ++ b_WAVE) ++ stream (map raw_of_item d)).
  fold (header size).
  rewrite <- (app_nil_r (stream (map raw_of_item d))).
  rewrite read_wav_chunks_stream; [| exact Hs | | apply truncated_nil].
  - unfold dict_of. rewrite fold_add_chunk_raw_of_item; [reflexivity| |exact Hw].
    exact Hnd.
  - apply Forall_forall. intros c Hc. apply in_map_iff in Hc.
    destruct Hc as [kv [<- Hkv]]. rewrite Forall_forall in He.
    destruct (He kv Hkv) as [H4 [[_ Hl] _]].
    split; cbn [raw_of_item fst snd]; [|exact Hl].
    rewrite len_map. exact H4.
Qed.

(** ** Odd payload lengths *)

(** C3.  The writer puts no pad byte after the three bytes of the [smpl]
    chunk, and the reader skips one: reading back what was written finds the
    [smpl] chunk only, the [data] chunk is lost. *)
Theorem odd_payload_breaks_decode_after_encode :
  let chunks :=
    [(str_smpl, [xaa; xbb; xcc]); (str_data, [xff; x7f; x00; x80])] in
  write_wav_chunks chunks 28 =
    Ok (header 28 ++ b_smpl ++ u32_bytes 3 ++ [xaa; xbb; xcc]
        ++ b_data ++ u32_bytes 4 ++ [xff; x7f; x00; x80]) /\
  (r <- write_wav_chunks chunks 28 ;; read_wav_chunks r)
    = Ok ([(str_smpl, [xaa; xbb; xcc])], 28) /\
  (r <- write_wav_chunks chunks 28 ;; read_wav_chunks r) <> Ok (chunks, 28).
Proof.
  cbv zeta. split; [reflexivity|]. split; [reflexivity|].
  vm_compute. discriminate.
Qed.

(** ** Sample buffers *)

Lemma tobytes_len (dt : dtype) (a : list Z) :
  len (tobytes dt a) = itemsize dt * len a.
Proof.
  induction a as [|z a IH]; [destruct dt; reflexivity|].
  unfold tobytes in *. cbn [flat_map]. rewrite len_app, len_cons, IH.
  destruct dt; cbn [item_bytes itemsize]; unfold len; cbn [length]; lia.
Qed.

Lemma frombuffer_i16_len (buf : bytes) :
  len (frombuffer_i16 buf) = len buf / 2.
Proof.
  enough (H : len (frombuffer_i16 buf) = len buf / 2 /\
              forall b, len (frombuffer_i16 (b :: buf)) = len (b :: buf) / 2)
    by apply H.
  induction buf as [|b0 buf [IH1 IH2]].
  - split; [reflexivity|intros b; reflexivity].
  - split; [apply IH2|]. intros b. cbn [frombuffer_i16].
    rewrite !len_cons, IH1.
    replace (1 + (1 + len buf)) with (1 * 2 + len buf) by lia.
    rewrite Z.div_add_l by lia. lia.
Qed.

Lemma frombuffer_i32_len (buf : bytes) :
  len (frombuffer_i32 buf) = len buf / 4.
Proof.
  enough (H : len (frombuffer_i32 buf) = len buf / 4 /\
              (forall b, len (frombuffer_i32 (b :: buf)) = len (b :: buf) / 4) /\
              (forall b c, len (frombuffer_i32 (b :: c :: buf))
                           = len (b :: c :: buf) / 4) /\
              (forall b c d, len (frombuffer_i32 (b :: c :: d :: buf))
                             = len (b :: c :: d :: buf) / 4))
    by apply H.
  induction buf as [|b0 buf [IH1 [IH2 [IH3 IH4]]]].
  - repeat split; intros; reflexivity.
  - split; [apply IH2|]. split; [intros b; apply IH3|].
    split; [intros b c; apply IH4|].
    intros b c d. cbn [frombuffer_i32]. rewrite !len_cons, IH1.
    replace (1 + (1 + (1 + (1 + len buf)))) with (1 * 4 + len buf) by lia.
    rewrite Z.div_add_l by lia. lia.
Qed.

Lemma frombuffer_len (dt : dtype) (buf : bytes) (a : list Z) :
  frombuffer dt buf = Ok a -> itemsize dt * len a = len buf.
Proof.
  unfold frombuffer. destruct (len buf mod itemsize dt =? 0) eqn:E; [|discriminate].
  apply Z.eqb_eq in E. intros H. apply Ok_inj in H. subst a.
  destruct dt; cbn [itemsize] in *.
  - unfold frombuffer_u8, len. rewrite length_map. lia.
  - rewrite frombuffer_i16_len.
    pose proof (Z.div_mod (len buf) 2 ltac:(lia)). lia.
  - rewrite frombuffer_i32_len.
    pose proof (Z.div_mod (len buf) 4 ltac:(lia)). lia.
Qed.

(** ** The sample transform: outcomes and lengths *)

Section Transform.

Variable P : platform.

Lemma gain_frames_unsupported (w : Z) (factor : f32) (buf : bytes) :
  w <> 1 -> w <> 2 -> w <> 4 ->
  gain_frames P w factor buf = Raise (ValueError_unsupported_width w).
Proof.
  intros H1 H2 H4. unfold gain_frames.
  apply Z.eqb_neq in H1, H2, H4. rewrite H1, H2, H4. reflexivity.
Qed.

Lemma gain_frames_misaligned (w : Z) (factor : f32) (buf : bytes) :
  w = 2 \/ w = 4 -> len buf mod w <> 0 ->
  gain_frames P w factor buf = Raise ValueError_buffer_size.
Proof.
  intros Hw Hm. unfold gain_frames, frombuffer.
  destruct Hw as [-> | ->]; cbn [Z.eqb Pos.eqb itemsize];
    apply Z.eqb_neq in Hm; rewrite Hm; reflexivity.
Qed.

Lemma gain_frames_len (w : Z) (factor : f32) (buf out : bytes) :
  gain_frames P w factor buf = Ok out -> len out = len buf.
Proof.
  unfold gain_frames.
  destruct (w =? 1) eqn:E1; [|destruct (w =? 2) eqn:E2; [|destruct (w =? 4) eqn:E4]].
  - destruct (frombuffer uint8 buf) as [a| |] eqn:F; try discriminate.
    cbn [bind]. intros H. apply Ok_inj in H. subst out.
    rewrite tobytes_len, !len_map. apply (frombuffer_len _ _ _ F).
  - destruct (frombuffer int16 buf) as [a| |] eqn:F; try discriminate.
    cbn [bind]. intros H. apply Ok_inj in H. subst out.
    rewrite tobytes_len, !len_map. apply (frombuffer_len _ _ _ F).
  - destruct (frombuffer int32 buf) as [a| |] eqn:F; try discriminate.
    cbn [bind]. intros H. apply Ok_inj in H. subst out.
    rewrite tobytes_len, !len_map. apply (frombuffer_len _ _ _ F).
  - discriminate.
Qed.

Lemma gain_frames_not_out_of_fuel (w : Z) (factor : f32) (buf : bytes) :
  gain_frames P w factor buf <> OutOfFuel.
Proof.
  unfold gain_frames, frombuffer.
  destruct (w =? 1); [|destruct (w =? 2); [|destruct (w =? 4)]];
    cbn [itemsize]; try destruct (_ =? 0); cbn [bind]; discriminate.
Qed.

(** ** Dictionary update in place *)

Lemma dict_set_split (k : str) (v old : bytes) (d : dict) :
  dict_get k d = Some old ->
  exists d1 d2,
    d = d1 ++ (k, old) :: d2 /\ dict_set k v d = d1 ++ (k, v) :: d2 /\
    ~ In k (dict_keys d1).
Proof.
  induction d as [|[k' v'] d IH]; cbn; [discriminate|].
  destruct (str_eqb k k') eqn:E.
  - apply str_eqb_eq in E. subst k'. intros [= ->].
    exists [], d. repeat split. intros [].
  - intros H. destruct (IH H) as [d1 [d2 [E1 [E2 Hn]]]].
    exists ((k', v') :: d1), d2. cbn. rewrite <- E1, E2. repeat split.
    apply str_eqb_neq in E. intros [H'|H']; [congruence|contradiction].
Qed.

(** ** Unsupported sample widths *)

(** C6, amended.  When the dictionary has a [data] chunk and the
    sample width is none of 1, 2 and 4, the transform raises the
    unsupported-width error and the dictionary is the one it was given. *)
Theorem unsupported_width_rejected
  (chunks : dict) (size w : Z) (factor : f32) (old : bytes) :
  dict_get str_data chunks = Some old ->
  w <> 1 -> w <> 2 -> w <> 4 ->
  reduce_volume_chunks P chunks size w factor
    = (chunks, Raise (ValueError_unsupported_width w)).
Proof.
  intros Hd H1 H2 H4. unfold reduce_volume_chunks. rewrite Hd.
  rewrite gain_frames_unsupported by assumption. reflexivity.
Qed.

(** ** Payloads that are not whole samples *)

(** C10.  For widths 2 and 4, a [data] payload whose length is not a
    multiple of the width makes the transform raise the [frombuffer] error,
    with the dictionary untouched; that error is none of the format,
    missing-chunk and unsupported-width ones. *)
Theorem misaligned_payload_rejected
  (chunks : dict) (size w : Z) (factor : f32) (old : bytes) :
  w = 2 \/ w = 4 ->
  dict_get str_data chunks = Some old ->
  len old mod w <> 0 ->
  reduce_volume_chunks P chunks size w factor
    = (chunks, Raise ValueError_buffer_size) /\
  ~ In ValueError_buffer_size
      [ValueError_not_riff; ValueError_not_wave; ValueError_data_not_found;
       ValueError_unsupported_width w].
Proof.
  intros Hw Hd Hm. split.
  - unfold reduce_volume_chunks. rewrite Hd.
    rewrite gain_frames_misaligned by assumption. reflexivity.
  - cbn [In]. intros [H|[H|[H|[H|[]]]]]; discriminate.
Qed.

(** ** The frame of the transform *)

(** C7.  On a dictionary with a [data] chunk, whatever the width and the
    factor, the dictionary after the transform is the one before with the
    payload of the [data] entry replaced, at the same place: every other
    entry is the same, in the same order.  On success the new payload is the
    transformed one; on failure it is the old one.  What the writer emits
    for the dictionary after the transform is the header, the entries before
    [data] as they were, the [data] entry, and the entries after it as they
    were. *)
Theorem gain_replaces_only_data_payload
  (chunks : dict) (size w : Z) (factor : f32) (old : bytes) :
  dict_get str_data chunks = Some old ->
  exists d1 d2 payload,
    chunks = d1 ++ (str_data, old) :: d2 /\
    fst (reduce_volume_chunks P chunks size w factor)
      = d1 ++ (str_data, payload) :: d2 /\
    (forall k, k <> str_data ->
       dict_get k (fst (reduce_volume_chunks P chunks size w factor))
         = dict_get k chunks) /\
    match snd (reduce_volume_chunks P chunks size w factor) with
    | Ok _ => gain_frames P w factor old = Ok payload
    | _ => payload = old
    end /\
    (forall new_size out,
       write_wav_chunks (fst (reduce_volume_chunks P chunks size w factor)) new_size
         = Ok out ->
       out = header new_size ++ flat_map item_layout d1
             ++ item_layout (str_data, payload) ++ flat_map item_layout d2).
Proof.
  intros Hd.
  assert (W : forall d1 d2 payload new_size out,
             write_wav_chunks (d1 ++ (str_data, payload) :: d2) new_size = Ok out ->
             out = header new_size ++ flat_map item_layout d1
                   ++ item_layout (str_data, payload) ++ flat_map item_layout d2).
  { intros d1 d2 payload new_size out. unfold write_wav_chunks.
    destruct (pack_u32 new_size) as [sb| |] eqn:Pk; try discriminate.
    cbn [bind].
    destruct (write_items _) as [body| |] eqn:Wi; try discriminate.
    cbn [bind]. intros H. apply Ok_inj in H. subst out.
    apply pack_u32_inv in Pk. destruct Pk as [_ ->].
    apply write_items_inv in Wi. destruct Wi as [_ ->].
    rewrite flat_map_app. cbn [flat_map]. unfold header.
    rewrite <- !app_assoc. reflexivity. }
  unfold reduce_volume_chunks. rewrite Hd.
  destruct (gain_frames P w factor old) as [new| |] eqn:G; cbn [fst snd].
  - destruct (dict_set_split str_data new old chunks Hd) as [d1 [d2 [E1 [E2 _]]]].
    exists d1, d2, new. rewrite dict_get_set_same.
    split; [exact E1|]. split; [exact E2|].
    split; [intros k Hk; apply dict_get_set_other, Hk|].
    split; [reflexivity|]. rewrite E2. apply W.
  - destruct (dict_set_split str_data old old chunks Hd) as [d1 [d2 [E1 _]]].
    exists d1, d2, old.
    split; [exact E1|]. split; [exact E1|]. split; [reflexivity|].
    split; [reflexivity|]. intros new_size out Hw. apply W. congruence.
  - destruct (dict_set_split str_data old old chunks Hd) as [d1 [d2 [E1 _]]].
    exists d1, d2, old.
    split; [exact E1|]. split; [exact E1|]. split; [reflexivity|].
    split; [reflexivity|]. intros new_size out Hw. apply W. congruence.
Qed.

(** ** The size field of the output *)

(** C9.  When [reduce_volume] produces a file, the 32-bit field at offset 4
    of that file is the declared size of the input minus the length of the
    old [data] payload plus the length of the new one. *)
Theorem output_size_field
  (data : bytes) (w : Z) (factor : f32) (out : bytes) :
  reduce_volume P data w factor = Ok out ->
  exists chunks original_size old new,
    read_wav_chunks data = Ok (chunks, original_size) /\
    dict_get str_data chunks = Some old /\
    gain_frames P w factor old = Ok new /\
    unpack_u32 (slice 4 8 out) = Ok (original_size - len old + len new).
Proof.
  unfold reduce_volume.
  destruct (read_wav_chunks data) as [[chunks size]| |] eqn:R; try discriminate.
  cbn [bind]. unfold reduce_volume_chunks.
  destruct (dict_get str_data chunks) as [old|] eqn:D; [|discriminate].
  destruct (gain_frames P w factor old) as [new| |] eqn:G; try discriminate.
  rewrite dict_get_set_same. cbn [bind]. unfold write_wav_chunks.
  destruct (pack_u32 (size - len new + len new)) as [sb| |] eqn:Pk;
    try discriminate.
  cbn [bind]. destruct (write_items _) as [body| |]; try discriminate.
  cbn [bind]. intros H. apply Ok_inj in H. subst out.
  exists chunks, size, old, new.
  split; [reflexivity|]. split; [exact D|]. split; [exact G|].
  apply pack_u32_inv in Pk. destruct Pk as [Hr ->].
  change (slice 4 8 (b_RIFF ++ u32_bytes (size - len new + len new) ++ b_WAVE ++ body))
    with (u32_bytes (size - len new + len new)).
  rewrite <- (gain_frames_len _ _ _ _ G).
  apply unpack_pack_u32, pack_u32_ok. exact Hr.
Qed.

Lemma write_wav_chunks_terminates (chunks : dict) (size : Z) :
  write_wav_chunks chunks size <> OutOfFuel.
Proof.
  assert (W : forall d, write_items d <> OutOfFuel).
  { induction d as [|[k v] d IH]; cbn [write_items]; [discriminate|].
    unfold encode_ascii, pack_u32.
    destruct (forallb _ k); cbn [bind]; [|discriminate].
    destruct (_ && _); cbn [bind]; [|discriminate].
    destruct (write_items d); cbn [bind]; [discriminate|discriminate|].
    contradiction. }
  unfold write_wav_chunks, pack_u32.
  destruct (_ && _); cbn [bind]; [|discriminate].
  specialize (W chunks). destruct (write_items chunks); cbn [bind];
    [discriminate|discriminate|contradiction].
Qed.

(** [reduce_volume] runs to an end on every input: it returns a file or
    raises. *)
Lemma reduce_volume_terminates (data : bytes) (w : Z) (factor : f32) :
  reduce_volume P data w factor <> OutOfFuel.
Proof.
  unfold reduce_volume.
  pose proof (read_wav_chunks_terminates data) as R.
  destruct (read_wav_chunks data) as [[chunks size]| |]; cbn [bind];
    [|discriminate|contradiction].
  unfold reduce_volume_chunks.
  destruct (dict_get str_data chunks) as [old|]; [|discriminate].
  pose proof (gain_frames_not_out_of_fuel w factor old) as G.
  destruct (gain_frames P w factor old) as [new| |]; cbn [bind];
    [|discriminate|contradiction].
  rewrite dict_get_set_same. cbn [bind]. apply write_wav_chunks_terminates.
Qed.

End Transform.

(** ** The transform on sample dictionaries and files *)

(** Width 3, as for 24-bit audio, on a dictionary with a [data] chunk. *)
Lemma unsupported_width_rejected_witness :
  dict_get str_data chunks_fmt_smpl_data
    = Some [x10; x27; xf0; xd8; xff; x7f; x00; x80] /\
  reduce_volume_chunks x86_64 chunks_fmt_smpl_data 56 3 f32_one
    = (chunks_fmt_smpl_data, Raise (ValueError_unsupported_width 3)).
Proof.
  split; [reflexivity|].
  apply (unsupported_width_rejected x86_64 chunks_fmt_smpl_data 56 3 f32_one
           [x10; x27; xf0; xd8; xff; x7f; x00; x80]);
    [reflexivity | discriminate | discriminate | discriminate].
Defined.

(** C6, against the specification as written.  The [data] chunk is looked
    up before the width is examined: with width 3 and no [data] chunk the
    error is the missing-chunk one. *)
Lemma unsupported_width_without_data :
  reduce_volume_chunks x86_64 [(str_fmt, fmt_pcm16)] 24 3 f32_one
    = ([(str_fmt, fmt_pcm16)], Raise ValueError_data_not_found).
Proof. reflexivity. Qed.

(** Three bytes of 16-bit samples. *)
Lemma misaligned_payload_rejected_witness :
  reduce_volume_chunks x86_64 [(str_data, [x01; x02; x03])] 11 2 f32_one
    = ([(str_data, [x01; x02; x03])], Raise ValueError_buffer_size) /\
  ~ In ValueError_buffer_size
      [ValueError_not_riff; ValueError_not_wave; ValueError_data_not_found;
       ValueError_unsupported_width 2].
Proof.
  apply (misaligned_payload_rejected x86_64 [(str_data, [x01; x02; x03])] 11 2
           f32_one [x01; x02; x03]).
  - left. reflexivity.
  - reflexivity.
  - discriminate.
Defined.

(** Doubling the samples of a dictionary that also holds [fmt ] and [smpl]
    chunks. *)
Lemma gain_replaces_only_data_payload_witness :
  exists d1 d2 payload,
    chunks_fmt_smpl_data
      = d1 ++ (str_data, [x10; x27; xf0; xd8; xff; x7f; x00; x80]) :: d2 /\
    fst (reduce_volume_chunks x86_64 chunks_fmt_smpl_data 56 2 f32_two)
      = d1 ++ (str_data, payload) :: d2 /\
    (forall k, k <> str_data ->
       dict_get k (fst (reduce_volume_chunks x86_64 chunks_fmt_smpl_data 56 2 f32_two))
         = dict_get k chunks_fmt_smpl_data) /\
    match snd (reduce_volume_chunks x86_64 chunks_fmt_smpl_data 56 2 f32_two) with
    | Ok _ =>
        gain_frames x86_64 2 f32_two [x10; x27; xf0; xd8; xff; x7f; x00; x80]
          = Ok payload
    | _ => payload = [x10; x27; xf0; xd8; xff; x7f; x00; x80]
    end /\
    (forall new_size out,
       write_wav_chunks
         (fst (reduce_volume_chunks x86_64 chunks_fmt_smpl_data 56 2 f32_two))
         new_size = Ok out ->
       out = header new_size ++ flat_map item_layout d1
             ++ item_layout (str_data, payload) ++ flat_map item_layout d2).
Proof.
  apply (gain_replaces_only_data_payload x86_64 chunks_fmt_smpl_data 56 2 f32_two
           [x10; x27; xf0; xd8; xff; x7f; x00; x80]).
  reflexivity.
Defined.

(** The same on a file: the size field stays 56. *)
Lemma output_size_field_witness :
  reduce_volume x86_64 wav_pcm16 2 f32_two
    = Ok (header 56 ++ stream [(b_fmt, fmt_pcm16); (b_smpl, [xde; xad; xbe; xef]);
                               (b_data, [x20; x4e; xe0; xb1; xff; x7f; x00; x80])]) /\
  exists chunks original_size old new,
    read_wav_chunks wav_pcm16 = Ok (chunks, original_size) /\
    dict_get str_data chunks = Some old /\
    gain_frames x86_64 2 f32_two old = Ok new /\
    unpack_u32 (slice 4 8 (header 56 ++ stream
       [(b_fmt, fmt_pcm16); (b_smpl, [xde; xad; xbe; xef]);
        (b_data, [x20; x4e; xe0; xb1; xff; x7f; x00; x80])]))
      = Ok (original_size - len old + len new).
Proof.
  assert (H : reduce_volume x86_64 wav_pcm16 2 f32_two
    = Ok (header 56 ++ stream [(b_fmt, fmt_pcm16); (b_smpl, [xde; xad; xbe; xef]);
                               (b_data, [x20; x4e; xe0; xb1; xff; x7f; x00; x80])]))
    by (vm_compute; reflexivity).
  split; [exact H|].
  exact (output_size_field x86_64 wav_pcm16 2 f32_two _ H).
Defined.

(** ** The transform, sample by sample *)

Lemma gain_frames_samples (P : platform) (w : Z) (factor : f32) (buf : bytes) :
  w = 1 \/ w = 2 \/ w = 4 ->
  gain_frames P w factor buf =
  (a <- frombuffer (dtype_of_width w) buf ;;
   Ok (tobytes (dtype_of_width w) (map (gain_sample P w factor) a))).
Proof.
  intros [-> | [-> | ->]]; unfold gain_frames, dtype_of_width;
    cbn [Z.eqb Pos.eqb];
    (destruct (frombuffer _ buf) as [a| |]; [|reflexivity|reflexivity]);
    cbn [bind]; rewrite ?map_map; reflexivity.
Qed.

Lemma all_bytes_complete (b : byte) : In b all_bytes.
Proof.
  unfold all_bytes. apply in_map_iff.
  exists (Z.to_nat (Z_of_byte b)). pose proof (Z_of_byte_range b). split.
  - rewrite Z2Nat.id by lia. apply byte_of_Z_of_byte.
  - apply in_seq. lia.
Qed.

Lemma unit_gain_int16_checked :
  forallb (fun b0 => forallb (unit_gain_int16_check b0) all_bytes) all_bytes = true.
Proof. vm_compute. reflexivity. Qed.

(** A 16-bit sample is unchanged at factor 1, on every platform. *)
Lemma unit_gain_int16_sample (P : platform) (b0 b1 : byte) :
  item_bytes int16
    (gain_sample P 2 f32_one (signed 16 (Z_of_byte b0 + 256 * Z_of_byte b1)))
  = [b0; b1].
Proof.
  pose proof unit_gain_int16_checked as H.
  rewrite forallb_forall in H. specialize (H b0 (all_bytes_complete b0)).
  rewrite forallb_forall in H. specialize (H b1 (all_bytes_complete b1)).
  unfold unit_gain_int16_check in H. unfold gain_sample, dtype_of_width, astype.
  cbn [Z.eqb Pos.eqb].
  change (2 ^ (8 * 2 - 1) - 1) with 32767.
  change (- 32767 - 1) with (-32768).
  destruct (f32_trunc _) as [y|]; [|discriminate].
  apply andb_true_iff in H. destruct H as [Hr He]. rewrite Hr.
  unfold bytes_eqb in He. destruct (list_eq_dec _ _ _); [assumption|discriminate].
Qed.

(** At factor 1 a payload of 16-bit samples comes back byte for byte. *)
Lemma unit_gain_int16 (P : platform) (buf : bytes) :
  len buf mod 2 = 0 -> gain_frames P 2 f32_one buf = Ok buf.
Proof.
  intros Hm. rewrite gain_frames_samples by auto.
  unfold frombuffer, dtype_of_width. cbn [Z.eqb Pos.eqb itemsize].
  rewrite Hm. cbn [Z.eqb bind]. f_equal. revert Hm.
  enough (H : (len buf mod 2 = 0 ->
               tobytes int16 (map (gain_sample P 2 f32_one) (frombuffer_i16 buf)) = buf)
              /\ forall b, len (b :: buf) mod 2 = 0 ->
                 tobytes int16 (map (gain_sample P 2 f32_one)
                                  (frombuffer_i16 (b :: buf))) = b :: buf)
    by apply H.
  induction buf as [|b0 buf [IH1 IH2]].
  - split; [reflexivity|]. intros b H. discriminate H.
  - split; [apply IH2|]. intros b H.
    cbn [frombuffer_i16 map]. unfold tobytes. cbn [flat_map].
    rewrite unit_gain_int16_sample. cbn [app]. do 2 f_equal. apply IH1.
    rewrite !len_cons in H.
    replace (1 + (1 + len buf)) with (len buf + 1 * 2) in H by lia.
    rewrite Z.mod_add in H by lia. exact H.
Qed.

(** At factor 1 a payload of 8-bit samples comes back byte for byte where
    the cast of a negative float to [uint8] wraps, as on x86-64. *)
Lemma unit_gain_uint8_x86_64 (buf : bytes) :
  gain_frames x86_64 1 f32_one buf = Ok buf.
Proof.
  rewrite gain_frames_samples by auto.
  unfold frombuffer, dtype_of_width. cbn [Z.eqb Pos.eqb itemsize].
  rewrite Z.mod_1_r. cbn [Z.eqb bind]. f_equal.
  induction buf as [|b buf IH]; [reflexivity|].
  unfold frombuffer_u8, tobytes in *. cbn [map flat_map]. rewrite IH.
  cbn [item_bytes app]. f_equal.
  assert (H : forallb (fun b => Byte.eqb
                (byte_of_Z (gain_sample x86_64 1 f32_one (Z_of_byte b))) b)
                all_bytes = true) by (vm_compute; reflexivity).
  rewrite forallb_forall in H. apply Byte.byte_dec_bl, H, all_bytes_complete.
Qed.

(** ** 32-bit samples *)

(** C1.  [float32] has 24 bits of precision, so a 32-bit sample does not
    always survive the conversion to [float32] and back: at factor 1 the
    sample 16777217 (bytes [01 00 00 01]) comes back as 16777216 (bytes
    [00 00 00 01]), on every platform, and the output file differs from the
    input file. *)
Theorem unit_gain_changes_int32_sample (P : platform) :
  f32_of_Z 16777217 = f32_of_Z 16777216 /\
  gain_frames P 4 f32_one [x01; x00; x00; x01] = Ok [x00; x00; x00; x01] /\
  reduce_volume P wav_pcm32 4 f32_one
    = Ok (header 40 ++ stream [(b_fmt, fmt_pcm32); (b_data, [x00; x00; x00; x01])]) /\
  reduce_volume P wav_pcm32 4 f32_one <> Ok wav_pcm32.
Proof.
  assert (G : gain_frames P 4 f32_one [x01; x00; x00; x01] = Ok [x00; x00; x00; x01])
    by reflexivity.
  assert (R : reduce_volume P wav_pcm32 4 f32_one
    = Ok (header 40 ++ stream [(b_fmt, fmt_pcm32); (b_data, [x00; x00; x00; x01])])).
  { unfold reduce_volume.
    replace (read_wav_chunks wav_pcm32)
      with (Ok ([(str_fmt, fmt_pcm32); (str_data, [x01; x00; x00; x01])], 40))
      by reflexivity.
    cbn [bind]. unfold reduce_volume_chunks.
    change (dict_get str_data [(str_fmt, fmt_pcm32); (str_data, [x01; x00; x00; x01])])
      with (Some [x01; x00; x00; x01]).
    cbv beta iota. rewrite G. reflexivity. }
  split; [reflexivity|]. split; [exact G|]. split; [exact R|].
  rewrite R. intros H. apply Ok_inj in H. discriminate H.
Qed.

(** C4.  For width 4 the upper bound [2^31 - 1] of the clip is not a
    [float32]: it becomes [2^31].  A sample scaled beyond the range is
    clipped to [2^31], which does not fit [int32], so what is stored is the
    result of an out-of-range cast; on x86-64 that is [-2^31].  The largest
    sample, 2147483647, scaled by 2 or by 10 comes out as -2147483648. *)
Theorem int32_clip_wraps_around :
  f32_of_Z (2 ^ (8 * 4 - 1) - 1) = f32_of_Z 2147483648 /\
  f32_trunc (f32_clip (f32_mul (f32_of_Z 2147483647) f32_two)
               (f32_of_Z (-2147483648)) (f32_of_Z 2147483647))
    = Some 2147483648 /\
  in_dtype int32 2147483648 = false /\
  (forall P, gain_frames P 4 f32_two [xff; xff; xff; x7f]
             = Ok (item_bytes int32
                     (wrap int32 (cast_invalid P int32 (f32_of_Z 2147483648))))) /\
  frombuffer int32 [xff; xff; xff; x7f] = Ok [2147483647] /\
  gain_frames x86_64 4 f32_two [xff; xff; xff; x7f] = Ok [x00; x00; x00; x80] /\
  gain_frames x86_64 4 f32_ten [xff; xff; xff; x7f] = Ok [x00; x00; x00; x80] /\
  frombuffer int32 [x00; x00; x00; x80] = Ok [-2147483648].
Proof.
  split; [reflexivity|]. split; [reflexivity|]. split; [reflexivity|].
  split; [intros P; reflexivity|].
  repeat split; vm_compute; reflexivity.
Qed.

(** The two samples the clamping rule names for width 2, on every
    platform. *)
Lemma int16_clamps_at_factor_two (P : platform) :
  gain_frames P 2 f32_two [xff; x7f] = Ok [xff; x7f] /\
  gain_frames P 2 f32_two [x00; x80] = Ok [x00; x80].
Proof. split; reflexivity. Qed.

(** * Further properties of the reader *)

Lemma map_to_N_inj (bs bs' : bytes) :
  map Byte.to_N bs = map Byte.to_N bs' -> bs = bs'.
Proof.
  revert bs'. induction bs as [|b bs IH]; intros [|b' bs']; cbn; try easy.
  intros H. injection H as Hb Hbs. f_equal; [|apply IH, Hbs].
  pose proof (Byte.of_to_N b) as E. rewrite Hb, Byte.of_to_N in E. congruence.
Qed.

Lemma decode_ascii_inv (bs : bytes) (s : str) :
  decode_ascii bs = Ok s -> forallb is_ascii bs = true /\ s = map Byte.to_N bs.
Proof.
  unfold decode_ascii. destruct (forallb is_ascii bs); [|discriminate].
  intros H. apply Ok_inj in H. auto.
Qed.

Lemma slice_len_le {A : Type} (a b : Z) (l : list A) :
  len (slice a b l) <= Z.max 0 (b - a).
Proof. unfold slice, len. rewrite length_firstn. lia. Qed.

Lemma slice_full_length {A : Type} (a b : Z) (l : list A) :
  0 <= a -> a < b -> len (slice a b l) = b - a -> b <= len l.
Proof.
  unfold slice, len. rewrite length_firstn, length_skipn. lia.
Qed.

(** The outcome [Ok] of the reader means valid tags, and the size it returns
    is the one stored at offset 4. *)
Lemma read_wav_chunks_ok_inv (data : bytes) (chunks : dict) (size : Z) :
  read_wav_chunks data = Ok (chunks, size) ->
  valid_tags data /\ unpack_u32 (slice 4 8 data) = Ok size /\
  chunk_loop (S (length data)) data 12 [] = Ok chunks.
Proof.
  unfold read_wav_chunks.
  destruct (decode_ascii (slice 0 4 data)) as [riff| |] eqn:E1; try discriminate.
  cbn [bind]. destruct (str_eqb riff str_RIFF) eqn:R; [|discriminate].
  cbn [negb].
  destruct (unpack_u32 (slice 4 8 data)) as [sz| |] eqn:E2; try discriminate.
  cbn [bind].
  destruct (decode_ascii (slice 8 12 data)) as [wv| |] eqn:E3; try discriminate.
  cbn [bind]. destruct (str_eqb wv str_WAVE) eqn:W; [|discriminate].
  cbn [negb].
  destruct (chunk_loop _ data 12 []) as [d| |] eqn:L; try discriminate.
  cbn [bind]. intros H. apply Ok_inj in H. injection H as -> ->.
  apply str_eqb_eq in R, W. subst riff wv.
  apply decode_ascii_inv in E1, E3. destruct E1 as [_ E1], E3 as [_ E3].
  split; [split|split; reflexivity].
  - apply map_to_N_inj. symmetry. exact E1.
  - apply map_to_N_inj. symmetry. exact E3.
Qed.

(** X1.  The reader returns normally exactly on the buffers that start with
    "RIFF", four more bytes and "WAVE"; the size it returns is the number
    those four bytes encode, whatever the length of the buffer. *)
Theorem read_succeeds_iff_valid_tags (data : bytes) :
  ((exists chunks size, read_wav_chunks data = Ok (chunks, size))
   <-> valid_tags data) /\
  (forall chunks size,
     read_wav_chunks data = Ok (chunks, size) ->
     unpack_u32 (slice 4 8 data) = Ok size /\ 0 <= size < 2 ^ 32).
Proof.
  split; [split|].
  - intros [chunks [size H]]. apply (read_wav_chunks_ok_inv _ _ _ H).
  - intros H. destruct (read_wav_chunks_total data H) as [c [s [E _]]].
    exists c, s. exact E.
  - intros chunks size H.
    destruct (read_wav_chunks_ok_inv _ _ _ H) as [_ [E _]].
    split; [exact E|apply (unpack_u32_range _ _ E)].
Qed.

(** A buffer of twelve bytes, the header alone, with a declared size that
    has nothing to do with its length. *)
Lemma read_succeeds_iff_valid_tags_witness :
  valid_tags (header 1000) /\
  (exists chunks size, read_wav_chunks (header 1000) = Ok (chunks, size)) /\
  (unpack_u32 (slice 4 8 (header 1000)) = Ok 1000 /\ 0 <= 1000 < 2 ^ 32).
Proof.
  assert (Ht : valid_tags (header 1000)) by (split; reflexivity).
  split; [exact Ht|]. split.
  - exact (proj2 (proj1 (read_succeeds_iff_valid_tags (header 1000))) Ht).
  - exact (proj2 (read_succeeds_iff_valid_tags (header 1000)) [] 1000 eq_refl).
Defined.

(** X2.  How the reader rejects a buffer, by its first twelve bytes: a first
    four-byte slice of ASCII bytes other than "RIFF" (the empty buffer
    included) gives the not-RIFF error; "RIFF" followed by fewer than four
    bytes gives [struct.error], not a [ValueError]; with "RIFF" and a size,
    ASCII bytes other than "WAVE" at offset 8 give the not-WAVE error; a byte
    above 127 in either tag gives [UnicodeDecodeError]. *)
Theorem read_header_errors (data : bytes) :
  (forallb is_ascii (slice 0 4 data) = true -> slice 0 4 data <> b_RIFF ->
   read_wav_chunks data = Raise ValueError_not_riff) /\
  (forallb is_ascii (slice 0 4 data) = false ->
   read_wav_chunks data = Raise UnicodeDecodeError) /\
  (slice 0 4 data = b_RIFF -> len data < 8 ->
   read_wav_chunks data = Raise struct_error) /\
  (slice 0 4 data = b_RIFF -> 8 <= len data ->
   forallb is_ascii (slice 8 12 data) = true -> slice 8 12 data <> b_WAVE ->
   read_wav_chunks data = Raise ValueError_not_wave) /\
  (slice 0 4 data = b_RIFF -> 8 <= len data ->
   forallb is_ascii (slice 8 12 data) = false ->
   read_wav_chunks data = Raise UnicodeDecodeError).
Proof.
  assert (Hsz : 8 <= len data -> exists n, unpack_u32 (slice 4 8 data) = Ok n).
  { intros H. apply (unpack_u32_slice data 4); lia. }
  assert (Hne : forall bs tag, forallb is_ascii bs = true -> bs <> tag ->
                  str_eqb (map Byte.to_N bs) (map Byte.to_N tag) = false).
  { intros bs tag _ Hneq. apply str_eqb_neq. intros E. apply Hneq.
    apply map_to_N_inj, E. }
  unfold read_wav_chunks, decode_ascii.
  split; [|split; [|split; [|split]]].
  - intros Ha Hn. rewrite Ha. cbn [bind].
    change str_RIFF with (map Byte.to_N b_RIFF).
    rewrite (Hne _ _ Ha Hn). reflexivity.
  - intros Ha. rewrite Ha. reflexivity.
  - intros Hr Hl. rewrite Hr. cbn [forallb is_ascii bind].
    change (negb (str_eqb (map Byte.to_N b_RIFF) str_RIFF)) with false.
    cbv iota.
    pose proof (slice_length 4 (len data) data ltac:(lia)) as L.
    assert (Hl4 : 4 <= len data).
    { apply (slice_full_length 0 4 data); [lia|lia|rewrite Hr; reflexivity]. }
    assert (E : len (slice 4 8 data) < 4).
    { unfold slice, len in *. rewrite length_firstn, length_skipn. lia. }
    unfold len in E.
    destruct (slice 4 8 data) as [|? [|? [|? [|? ?]]]]; cbn [length] in E;
      try lia; reflexivity.
  - intros Hr Hl Ha Hn. rewrite Hr. cbn [forallb is_ascii bind].
    change (negb (str_eqb (map Byte.to_N b_RIFF) str_RIFF)) with false.
    cbv iota. destruct (Hsz Hl) as [n ->]. cbn [bind]. rewrite Ha. cbn [bind].
    change str_WAVE with (map Byte.to_N b_WAVE).
    rewrite (Hne _ _ Ha Hn). reflexivity.
  - intros Hr Hl Ha. rewrite Hr. cbn [forallb is_ascii bind].
    change (negb (str_eqb (map Byte.to_N b_RIFF) str_RIFF)) with false.
    cbv iota. destruct (Hsz Hl) as [n ->]. cbn [bind]. rewrite Ha. reflexivity.
Qed.

(** The empty buffer, "RIFF" alone, and an AVI file header. *)
Lemma read_header_errors_witness :
  read_wav_chunks [] = Raise ValueError_not_riff /\
  read_wav_chunks b_RIFF = Raise struct_error /\
  read_wav_chunks (b_RIFF ++ u32_bytes 4 ++ [x41; x56; x49; x20])
    = Raise ValueError_not_wave.
Proof.
  split; [|split].
  - apply (proj1 (read_header_errors [])); [reflexivity|discriminate].
  - apply (proj1 (proj2 (proj2 (read_header_errors b_RIFF))));
      [reflexivity|reflexivity].
  - apply (proj1 (proj2 (proj2 (proj2 (read_header_errors
             (b_RIFF ++ u32_bytes 4 ++ [x41; x56; x49; x20]))))));
      [reflexivity|discriminate|reflexivity|discriminate].
Defined.

Lemma Forall_dict_set (Q : str * bytes -> Prop) (k : str) (v : bytes) (d : dict) :
  Forall Q d -> Q (k, v) -> Forall Q (dict_set k v d).
Proof.
  intros Hd Hkv. induction Hd as [|[k' v'] d Hk' Hd IH]; cbn.
  - repeat constructor. exact Hkv.
  - destruct (str_eqb k k') eqn:E.
    + apply str_eqb_eq in E. subst k'. constructor; assumption.
    + constructor; assumption.
Qed.

Lemma decode_ascii_replace_len (bs : bytes) :
  len (decode_ascii_replace bs) = len bs.
Proof. apply len_map. Qed.

(** The loop keeps the entries well-formed and the keys distinct. *)
Lemma chunk_loop_invariant (fuel : nat) :
  forall (data : bytes) (pos : Z) (acc d : dict),
    12 <= pos ->
    Forall (chunk_ok data) acc -> NoDup (dict_keys acc) ->
    chunk_loop fuel data pos acc = Ok d ->
    Forall (chunk_ok data) d /\ NoDup (dict_keys d).
Proof.
  induction fuel as [|fuel IH]; intros data pos acc d Hpos Hacc Hnd;
    cbn [chunk_loop]; [discriminate|].
  destruct (pos + 8 <=? len data) eqn:E;
    [|intros H; apply Ok_inj in H; subst; auto].
  apply Z.leb_le in E.
  destruct (unpack_u32 (slice (pos + 4) (pos + 8) data)) as [n| |] eqn:Hn;
    try discriminate.
  cbn [bind]. pose proof (unpack_u32_range _ _ Hn) as Rn.
  destruct (pos + 8 + n >? len data) eqn:E2;
    [intros H; apply Ok_inj in H; subst; auto|].
  rewrite Z.gtb_ltb in E2. apply Z.ltb_ge in E2.
  apply IH.
  - destruct (n mod 2 =? 1); lia.
  - apply Forall_dict_set; [exact Hacc|].
    assert (L : len (slice (pos + 8) (pos + 8 + n) data) = n).
    { rewrite slice_length by lia. lia. }
    split; [|split]; cbn [fst snd].
    + rewrite decode_ascii_replace_len, slice_length by lia. lia.
    + rewrite L. apply Rn.
    + exists (pos + 8). rewrite L. split; [lia|]. split; [lia|reflexivity].
  - apply dict_set_NoDup, Hnd.
Qed.

(** X3.  Whatever the buffer, the dictionary the reader returns has distinct
    keys of four characters each, and every payload is a slice of the buffer,
    beyond the header and the first chunk header, of a length below
    [2^32]. *)
Theorem read_chunks_invariant (data : bytes) (chunks : dict) (size : Z) :
  read_wav_chunks data = Ok (chunks, size) ->
  NoDup (dict_keys chunks) /\ Forall (chunk_ok data) chunks.
Proof.
  intros H. destruct (read_wav_chunks_ok_inv _ _ _ H) as [_ [_ L]].
  destruct (chunk_loop_invariant _ data 12 [] chunks (Z.le_refl 12)
              (Forall_nil _) (NoDup_nil _) L) as [A B].
  split; assumption.
Qed.

Lemma read_chunks_invariant_witness :
  NoDup (dict_keys [(str_smpl, [x03; x04; x05; x06]); (str_data, [x10; x00])]) /\
  Forall (chunk_ok wav_dup)
    [(str_smpl, [x03; x04; x05; x06]); (str_data, [x10; x00])].
Proof.
  apply (read_chunks_invariant wav_dup _ 38). reflexivity.
Defined.

(** ** A last chunk of odd length without its pad byte *)

(** One iteration on a complete chunk, whatever follows its payload. *)
Lemma chunk_loop_step_nopad (fuel : nat) (pre rest : bytes) (c : raw_chunk)
  (acc : dict) :
  well_formed c ->
  chunk_loop (S fuel) (pre ++ chunk_nopad c ++ rest) (len pre) acc =
  chunk_loop fuel (pre ++ chunk_nopad c ++ rest)
    (len (pre ++ chunk_nopad c) + (if len (snd c) mod 2 =? 1 then 1 else 0))
    (add_chunk acc c).
Proof.
  destruct c as [id p]. intros [Hid Hp]. cbn [fst snd] in *.
  pose proof (len_nonneg p) as Hp0.
  unfold chunk_nopad. cbn [fst snd].
  set (data := pre ++ (id ++ u32_bytes (len p) ++ p) ++ rest).
  assert (Hlen : len data = len pre + 8 + len p + len rest).
  { unfold data. rewrite !len_app, u32_bytes_len. lia. }
  pose proof (len_nonneg rest) as Hr.
  cbn [chunk_loop].
  replace (len pre + 8 <=? len data) with true by (symmetry; apply Z.leb_le; lia).
  assert (E1 : slice (len pre) (len pre + 4) data = id).
  { unfold data. rewrite <- app_assoc.
    apply slice_app_mid; [reflexivity | lia]. }
  assert (E2 : slice (len pre + 4) (len pre + 8) data = u32_bytes (len p)).
  { unfold data.
    replace (pre ++ (id ++ u32_bytes (len p) ++ p) ++ rest)
      with ((pre ++ id) ++ u32_bytes (len p) ++ (p ++ rest))
      by (rewrite <- !app_assoc; reflexivity).
    apply slice_app_mid; rewrite len_app; [lia | rewrite u32_bytes_len; lia]. }
  assert (E3 : slice (len pre + 8) (len pre + 8 + len p) data = p).
  { unfold data.
    replace (pre ++ (id ++ u32_bytes (len p) ++ p) ++ rest)
      with ((pre ++ id ++ u32_bytes (len p)) ++ p ++ rest)
      by (rewrite <- !app_assoc; reflexivity).
    apply slice_app_mid; rewrite !len_app, u32_bytes_len; lia. }
  rewrite E1, E2.
  rewrite (unpack_pack_u32 (len p) _ (pack_u32_ok _ (conj Hp0 Hp))). cbn [bind].
  replace (len pre + 8 + len p >? len data) with false
    by (symmetry; rewrite Z.gtb_ltb; apply Z.ltb_ge; lia).
  rewrite E3. unfold add_chunk. cbn [fst snd].
  f_equal. rewrite !len_app, u32_bytes_len.
  destruct (len p mod 2 =? 1); lia.
Qed.

(** The loop over the complete chunks of a stream, up to what follows. *)
Lemma chunk_loop_stream_then (cs : list raw_chunk) :
  forall (pre tail : bytes) (acc : dict) (fuel : nat),
    Forall well_formed cs ->
    chunk_loop (length cs + fuel) (pre ++ stream cs ++ tail) (len pre) acc =
    chunk_loop fuel (pre ++ stream cs ++ tail) (len (pre ++ stream cs))
      (fold_left add_chunk cs acc).
Proof.
  induction cs as [|c cs IH]; intros pre tail acc fuel Hwf.
  - cbn [stream flat_map app fold_left length Nat.add].
    rewrite app_nil_r. reflexivity.
  - inversion Hwf as [|? ? Hc Hcs]; subst.
    cbn [stream flat_map fold_left length Nat.add]. fold (stream cs).
    rewrite <- (app_assoc (chunk_bytes c)).
    rewrite chunk_loop_step by exact Hc.
    rewrite (app_assoc pre (chunk_bytes c)).
    rewrite IH by exact Hcs. rewrite <- !app_assoc. reflexivity.
Qed.

Lemma read_wav_chunks_stream_nopad
  (size : Z) (cs : list raw_chunk) (c : raw_chunk) :
  0 <= size < 2 ^ 32 -> Forall well_formed cs -> well_formed c ->
  read_wav_chunks (header size ++ stream cs ++ chunk_nopad c)
    = Ok (dict_of (cs ++ [c]), size).
Proof.
  intros Hs Hwf Hc. unfold read_wav_chunks.
  destruct (header_prefix size (stream cs ++ chunk_nopad c) Hs) as [E1 [E2 E3]].
  rewrite E1. cbn [bind]. rewrite str_eqb_refl. cbn [negb].
  rewrite E2. cbn [bind]. rewrite E3. cbn [bind]. rewrite str_eqb_refl. cbn [negb].
  pose proof (stream_length cs Hwf) as L.
  set (data := header size ++ stream cs ++ chunk_nopad c).
  assert (Hd : len data = 12 + len (stream cs) + len (chunk_nopad c)).
  { unfold data. rewrite !len_app. change (len (header size)) with 12. lia. }
  assert (Hc8 : 8 <= len (chunk_nopad c)).
  { unfold chunk_nopad. rewrite !len_app, u32_bytes_len.
    destruct Hc as [H4 _]. pose proof (len_nonneg (snd c)). lia. }
  assert (F : exists fuel, S (length data) = (length cs + S (S fuel))%nat).
  { exists (length data - length cs - 1)%nat. unfold len in *. lia. }
  destruct F as [fuel ->].
  change 12 with (len (header size)). unfold data.
  rewrite chunk_loop_stream_then by exact Hwf.
  rewrite (app_assoc (header size)).
  rewrite <- (app_nil_r (chunk_nopad c)) at 1.
  rewrite chunk_loop_step_nopad by exact Hc.
  rewrite app_nil_r.
  rewrite chunk_loop_stop_short.
  - cbn [bind]. unfold dict_of. rewrite fold_left_app. reflexivity.
  - rewrite !len_app. destruct (len (snd c) mod 2 =? 1); lia.
Qed.

(** X4.  A file may end right after a payload of odd length: the reader
    stores that chunk like any other and stops, it does not need the pad
    byte. *)
Theorem read_last_chunk_without_pad
  (size : Z) (cs : list raw_chunk) (c : raw_chunk) :
  0 <= size < 2 ^ 32 -> Forall well_formed cs -> well_formed c ->
  len (snd c) mod 2 = 1 ->
  read_wav_chunks (header size ++ stream cs ++ chunk_nopad c)
    = Ok (dict_of (cs ++ [c]), size).
Proof.
  intros Hs Hwf Hc _. apply read_wav_chunks_stream_nopad; assumption.
Qed.

(** A [data] chunk of three bytes at the end of the file. *)
Lemma read_last_chunk_without_pad_witness :
  read_wav_chunks (header 23 ++ stream [(b_smpl, [x01; x02])]
                   ++ chunk_nopad (b_data, [x0a; x0b; x0c]))
    = Ok ([(str_smpl, [x01; x02]); (str_data, [x0a; x0b; x0c])], 23).
Proof.
  apply (read_last_chunk_without_pad 23 [(b_smpl, [x01; x02])]
           (b_data, [x0a; x0b; x0c])).
  - split; [apply Z.leb_le|apply Z.ltb_lt]; reflexivity.
  - repeat constructor.
  - repeat constructor.
  - reflexivity.
Defined.

(** ** The order of the keys *)

Lemma existsb_str_eqb_In (k : str) (l : list str) :
  existsb (str_eqb k) l = true <-> In k l.
Proof.
  rewrite existsb_exists. split.
  - intros [x [Hx E]]. apply str_eqb_eq in E. subst. exact Hx.
  - intros H. exists k. split; [exact H|apply str_eqb_refl].
Qed.

Lemma fold_add_chunk_keys (cs : list raw_chunk) :
  forall acc,
    dict_keys (fold_left add_chunk cs acc)
    = dict_keys acc
      ++ uniq_first (dict_keys acc)
           (map (fun c => decode_ascii_replace (fst c)) cs).
Proof.
  induction cs as [|c cs IH]; intros acc; cbn [fold_left map uniq_first].
  - symmetry. apply app_nil_r.
  - rewrite IH. unfold add_chunk.
    set (k := decode_ascii_replace (fst c)).
    destruct (existsb (str_eqb k) (dict_keys acc)) eqn:E.
    + apply existsb_str_eqb_In in E.
      destruct (dict_get k acc) as [v0|] eqn:G.
      * rewrite (dict_keys_set_present k (snd c) v0 acc G). reflexivity.
      * apply dict_get_None_keys in G. contradiction.
    + assert (G : dict_get k acc = None).
      { apply dict_get_None_keys. intros H.
        apply existsb_str_eqb_In in H. congruence. }
      rewrite (dict_keys_set_absent k (snd c) acc G).
      rewrite <- app_assoc. reflexivity.
Qed.

(** X5.  The keys of the dictionary the reader returns are the decoded
    identifiers of the chunks in the order of their first occurrence: a
    repeated identifier keeps the place of its first chunk (and, by the
    last-write-wins rule, the payload of its last). *)
Theorem read_keys_in_first_occurrence_order
  (size : Z) (cs : list raw_chunk) (tail : bytes) :
  0 <= size < 2 ^ 32 -> Forall well_formed cs -> truncated tail ->
  exists chunks,
    read_wav_chunks (header size ++ stream cs ++ tail) = Ok (chunks, size) /\
    dict_keys chunks
    = uniq_first [] (map (fun c => decode_ascii_replace (fst c)) cs).
Proof.
  intros Hs Hwf Ht. exists (dict_of cs).
  split; [apply read_wav_chunks_stream; assumption|].
  unfold dict_of. rewrite fold_add_chunk_keys. reflexivity.
Qed.

(** [smpl], [data], [smpl] is read as [smpl] then [data]. *)
Lemma read_keys_in_first_occurrence_order_witness :
  exists chunks,
    read_wav_chunks (header 38 ++ stream cs_dup ++ []) = Ok (chunks, 38) /\
    dict_keys chunks = [str_smpl; str_data].
Proof.
  apply (read_keys_in_first_occurrence_order 38 cs_dup []).
  - split; [apply Z.leb_le|apply Z.ltb_lt]; reflexivity.
  - repeat constructor.
  - left. reflexivity.
Defined.

(** * Further properties of the writer *)

Lemma write_wav_chunks_ok (d : dict) (size : Z) :
  0 <= size < 2 ^ 32 -> Forall writable d ->
  write_wav_chunks d size = Ok (header size ++ flat_map item_layout d).
Proof.
  intros Hs Hw. unfold write_wav_chunks.
  rewrite (pack_u32_ok size Hs). cbn [bind].
  rewrite (write_items_ok d Hw). cbn [bind].
  unfold header. rewrite <- !app_assoc. reflexivity.
Qed.

(** X6.  The writer returns exactly when the size fits 32 bits unsigned,
    every key is ASCII and every payload is shorter than [2^32]; what it
    returns is the header with that size followed by each entry in
    dictionary order as key, payload length and payload, with nothing
    between or after the entries. *)
Theorem write_succeeds_iff (d : dict) (size : Z) (out : bytes) :
  write_wav_chunks d size = Ok out <->
  0 <= size < 2 ^ 32 /\ Forall writable d /\
  out = header size ++ flat_map item_layout d.
Proof.
  unfold write_wav_chunks. split.
  - destruct (pack_u32 size) as [sb| |] eqn:Pk; try discriminate.
    cbn [bind]. destruct (write_items d) as [body| |] eqn:W; try discriminate.
    cbn [bind]. intros H. apply Ok_inj in H. subst out.
    apply pack_u32_inv in Pk. destruct Pk as [Hs ->].
    apply write_items_inv in W. destruct W as [Hw ->].
    split; [exact Hs|]. split; [exact Hw|].
    unfold header. rewrite <- !app_assoc. reflexivity.
  - intros [Hs [Hw ->]]. apply write_wav_chunks_ok; assumption.
Qed.

Lemma write_succeeds_iff_witness :
  write_wav_chunks chunks_fmt_smpl_data 56
    = Ok (header 56 ++ flat_map item_layout chunks_fmt_smpl_data).
Proof.
  apply (proj2 (write_succeeds_iff chunks_fmt_smpl_data 56 _)).
  split; [split; [apply Z.leb_le|apply Z.ltb_lt]; reflexivity|].
  split; [repeat constructor|reflexivity].
Defined.

(** Chunks with distinct keys are read into the dictionary one entry each,
    in order. *)
Lemma fold_add_chunk_distinct (cs : list raw_chunk) :
  forall acc,
    NoDup (dict_keys acc ++ map (fun c => decode_ascii_replace (fst c)) cs) ->
    fold_left add_chunk cs acc = acc ++ map item_of_raw cs.
Proof.
  induction cs as [|c cs IH]; intros acc Hnd; cbn [map fold_left].
  - symmetry. apply app_nil_r.
  - cbn [map] in Hnd.
    assert (Hnotin : ~ In (decode_ascii_replace (fst c)) (dict_keys acc)).
    { apply NoDup_remove_2 in Hnd. intros H. apply Hnd.
      apply in_or_app. left. exact H. }
    unfold add_chunk at 2. rewrite dict_set_absent by exact Hnotin.
    rewrite IH.
    + rewrite <- app_assoc. reflexivity.
    + unfold dict_keys in *. rewrite map_app. cbn [map fst].
      rewrite <- app_assoc. exact Hnd.
Qed.

Lemma stream_nopad_length (cs : list raw_chunk) :
  len (stream cs)
  = len (flat_map chunk_nopad cs)
    + len (filter odd_payload cs).
Proof.
  induction cs as [|c cs IH]; [reflexivity|].
  cbn [stream flat_map filter]. fold (stream cs).
  rewrite !len_app, IH.
  set (rest := flat_map chunk_nopad cs).
  unfold chunk_bytes, chunk_nopad, pad_of, odd_payload. rewrite !len_app.
  destruct (len (snd c) mod 2 =? 1); rewrite ?len_cons;
    change (len (@nil byte)) with 0; lia.
Qed.

Lemma stream_nopad_even (cs : list raw_chunk) :
  Forall even_payload cs ->
  flat_map chunk_nopad cs = stream cs.
Proof.
  induction 1 as [|c cs He _ IH]; [reflexivity|].
  cbn [stream flat_map]. fold (stream cs). rewrite IH. f_equal.
  unfold even_payload in He.
  unfold chunk_bytes, chunk_nopad, pad_of. rewrite He. cbn [Z.eqb].
  rewrite app_nil_r. reflexivity.
Qed.

Lemma item_layout_item_of_raw (c : raw_chunk) :
  forallb is_ascii (fst c) = true -> item_layout (item_of_raw c) = chunk_nopad c.
Proof.
  intros Ha. unfold item_layout, item_of_raw, chunk_nopad. cbn [fst snd].
  rewrite (proj2 (decode_replace_encodable _ Ha)). reflexivity.
Qed.

(** Reading a file of chunks with distinct ASCII identifiers and writing the
    dictionary back. *)
Lemma write_after_read_stream (size : Z) (cs : list raw_chunk) :
  0 <= size < 2 ^ 32 -> Forall well_formed cs ->
  Forall (fun c => forallb is_ascii (fst c) = true) cs ->
  NoDup (map fst cs) ->
  read_wav_chunks (header size ++ stream cs) = Ok (map item_of_raw cs, size) /\
  write_wav_chunks (map item_of_raw cs) size
    = Ok (header size ++ flat_map chunk_nopad cs).
Proof.
  intros Hs Hwf Hascii Hnd.
  assert (Hkeys : NoDup (map (fun c => decode_ascii_replace (fst c)) cs)).
  { clear Hwf Hs. induction cs as [|c cs IH]; [constructor|].
    inversion Hnd as [|? ? Hn Hnd']; subst.
    inversion Hascii as [|? ? Ha Hascii']; subst.
    cbn [map]. constructor; [|apply IH; assumption].
    intros Hin. apply Hn. apply in_map_iff in Hin.
    destruct Hin as [c' [E Hc']]. apply in_map_iff. exists c'.
    split; [|exact Hc']. apply (decode_replace_inj_ascii _ _ Ha E). }
  assert (Hd : dict_of cs = map item_of_raw cs).
  { unfold dict_of. rewrite fold_add_chunk_distinct; [reflexivity|exact Hkeys]. }
  split.
  - rewrite <- Hd. rewrite <- (app_nil_r (stream cs)).
    apply read_wav_chunks_stream; [exact Hs|exact Hwf|apply truncated_nil].
  - rewrite write_wav_chunks_ok;
      [|exact Hs|rewrite <- Hd; apply dict_of_writable; assumption].
    do 2 f_equal. clear Hd Hkeys Hnd Hwf.
    induction Hascii as [|c cs Ha _ IH]; [reflexivity|].
    cbn [map flat_map]. rewrite IH.
    rewrite (item_layout_item_of_raw c Ha). reflexivity.
Qed.

(** X7.  Reading a file of complete chunks with distinct ASCII identifiers
    and writing the dictionary back gives the same chunks in the same order
    without the pad bytes: the output is shorter than the input by one byte
    per payload of odd length, and equal to the input when no payload is
    odd. *)
Theorem write_after_read_drops_pad_bytes (size : Z) (cs : list raw_chunk) :
  0 <= size < 2 ^ 32 -> Forall well_formed cs ->
  Forall (fun c => forallb is_ascii (fst c) = true) cs ->
  NoDup (map fst cs) ->
  let input := header size ++ stream cs in
  let output := header size ++ flat_map chunk_nopad cs in
  ('(chunks, n) <- read_wav_chunks input ;; write_wav_chunks chunks n)
    = Ok output /\
  len output = len input - len (filter odd_payload cs) /\
  (Forall even_payload cs -> output = input).
Proof.
  intros Hs Hwf Hascii Hnd. cbv zeta.
  destruct (write_after_read_stream size cs Hs Hwf Hascii Hnd) as [R W].
  split; [|split].
  - rewrite R. cbn [bind]. exact W.
  - rewrite !len_app, stream_nopad_length. lia.
  - intros He. rewrite (stream_nopad_even cs He). reflexivity.
Qed.

(** The file [wav_cut] without its tail: the pad byte after the three bytes
    of [smpl] is gone from the output. *)
Lemma write_after_read_drops_pad_bytes_witness :
  ('(chunks, n) <- read_wav_chunks (header 43 ++ stream cs_smpl_data) ;;
   write_wav_chunks chunks n)
    = Ok (header 43 ++ flat_map chunk_nopad cs_smpl_data) /\
  len (header 43 ++ flat_map chunk_nopad cs_smpl_data)
    = len (header 43 ++ stream cs_smpl_data) - 1.
Proof.
  destruct (write_after_read_drops_pad_bytes 43 cs_smpl_data) as [H1 [H2 _]].
  - split; [apply Z.leb_le|apply Z.ltb_lt]; reflexivity.
  - repeat constructor.
  - repeat constructor.
  - repeat constructor; cbn; intuition discriminate.
  - split; [exact H1|exact H2].
Defined.

(** X8.  A dictionary with distinct ASCII keys of four characters and
    payloads shorter than [2^32], all of even length except possibly the
    last, is read back from what the writer emits for it, with the size it
    was written with. *)
Theorem read_after_write (d : dict) (kv : str * bytes) (size : Z) :
  0 <= size < 2 ^ 32 -> NoDup (dict_keys (d ++ [kv])) ->
  Forall even_item d -> len (fst kv) = 4 -> writable kv ->
  (r <- write_wav_chunks (d ++ [kv]) size ;; read_wav_chunks r)
    = Ok (d ++ [kv], size).
Proof.
  intros Hs Hnd He H4 Hkv.
  assert (Hw : Forall writable (d ++ [kv])).
  { apply Forall_app. split; [|constructor; [exact Hkv|constructor]].
    eapply Forall_impl; [|exact He]. intros x [_ [H _]]. exact H. }
  rewrite (write_wav_chunks_ok (d ++ [kv]) size Hs Hw).
  cbn [bind]. rewrite flat_map_app. cbn [flat_map]. rewrite app_nil_r.
  rewrite <- (stream_raw_of_item d He).
  change (item_layout kv) with (chunk_nopad (raw_of_item kv)).
  rewrite read_wav_chunks_stream_nopad.
  - unfold dict_of.
    change (map raw_of_item d ++ [raw_of_item kv])
      with (map raw_of_item d ++ map raw_of_item [kv]).
    rewrite <- map_app.
    rewrite fold_add_chunk_raw_of_item; [reflexivity|exact Hnd|exact Hw].
  - exact Hs.
  - apply Forall_forall. intros c Hc. apply in_map_iff in Hc.
    destruct Hc as [x [<- Hx]]. rewrite Forall_forall in He.
    destruct (He x Hx) as [Hx4 [[_ Hl] _]].
    split; cbn [raw_of_item fst snd]; [rewrite len_map; exact Hx4|exact Hl].
  - destruct Hkv as [_ Hl].
    split; cbn [raw_of_item fst snd]; [rewrite len_map; exact H4|exact Hl].
Qed.

(** [fmt ] and [smpl] of even lengths, then a [data] payload of three
    bytes. *)
Lemma read_after_write_witness :
  (r <- write_wav_chunks
          ([(str_fmt, fmt_pcm16); (str_smpl, [xde; xad; xbe; xef])]
           ++ [(str_data, [x01; x02; x03])]) 51 ;;
   read_wav_chunks r)
    = Ok ([(str_fmt, fmt_pcm16); (str_smpl, [xde; xad; xbe; xef])]
          ++ [(str_data, [x01; x02; x03])], 51).
Proof.
  apply (read_after_write [(str_fmt, fmt_pcm16); (str_smpl, [xde; xad; xbe; xef])]
           (str_data, [x01; x02; x03]) 51).
  - split; [apply Z.leb_le|apply Z.ltb_lt]; reflexivity.
  - repeat constructor; cbn; intuition discriminate.
  - repeat constructor.
  - reflexivity.
  - split; reflexivity.
Defined.

(** * Further properties of the sample transform *)

(** Given the factor, the transform of a payload returns exactly when the
    sample width is 1, or is 2 or 4 and divides the payload length; what it
    returns has the length of the payload. *)
Lemma gain_frames_ok_iff
  (P : platform) (w : Z) (factor : f32) (buf : bytes) :
  ((exists out, gain_frames P w factor buf = Ok out) <->
   (w = 1 \/ ((w = 2 \/ w = 4) /\ len buf mod w = 0))) /\
  (forall out, gain_frames P w factor buf = Ok out -> len out = len buf).
Proof.
  split; [split|].
  - intros [out H].
    destruct (Z.eq_dec w 1) as [E1|N1]; [left; exact E1|right].
    destruct (Z.eq_dec w 2) as [E2|N2].
    + split; [left; exact E2|].
      destruct (Z.eq_dec (len buf mod w) 0) as [E|N]; [exact E|].
      rewrite (gain_frames_misaligned P w factor buf (or_introl E2) N) in H.
      discriminate.
    + destruct (Z.eq_dec w 4) as [E4|N4].
      * split; [right; exact E4|].
        destruct (Z.eq_dec (len buf mod w) 0) as [E|N]; [exact E|].
        rewrite (gain_frames_misaligned P w factor buf (or_intror E4) N) in H.
        discriminate.
      * rewrite (gain_frames_unsupported P w factor buf N1 N2 N4) in H.
        discriminate.
  - intros Hw.
    assert (Hs : w = 1 \/ w = 2 \/ w = 4) by (destruct Hw as [|[[|] _]]; auto).
    rewrite (gain_frames_samples P w factor buf Hs). unfold frombuffer.
    assert (E : len buf mod itemsize (dtype_of_width w) = 0).
    { destruct Hw as [->|[[->| ->] Hm]]; cbn; try exact Hm. apply Z.mod_1_r. }
    rewrite E. cbn [Z.eqb bind]. eexists. reflexivity.
  - apply gain_frames_len.
Qed.

(** ** Silence *)

Lemma gain_sample_silence (P : platform) (factor : f32) :
  f32_is_finite factor = true ->
  gain_sample P 1 factor 128 = 128 /\
  gain_sample P 2 factor 0 = 0 /\
  gain_sample P 4 factor 0 = 0.
Proof.
  destruct factor as [s|s| |s m e]; try discriminate; intros _;
    destruct s; repeat split; reflexivity.
Qed.

Lemma len_concat_repeat {A : Type} (l : list A) (n : nat) :
  len (concat (repeat l n)) = Z.of_nat n * len l.
Proof.
  induction n as [|n IH]; [reflexivity|].
  cbn [repeat concat]. rewrite len_app, IH. lia.
Qed.

(** Given a finite [float32] factor, a payload of silence comes back
    unchanged. *)
Lemma zero_samples_kept (P : platform) (factor : f32) (n : nat) :
  f32_is_finite factor = true ->
  gain_frames P 1 factor (repeat x80 n) = Ok (repeat x80 n) /\
  gain_frames P 2 factor (concat (repeat [x00; x00] n))
    = Ok (concat (repeat [x00; x00] n)) /\
  gain_frames P 4 factor (concat (repeat [x00; x00; x00; x00] n))
    = Ok (concat (repeat [x00; x00; x00; x00] n)).
Proof.
  intros Hf. destruct (gain_sample_silence P factor Hf) as [S1 [S2 S4]].
  split; [|split]; rewrite gain_frames_samples by auto;
    unfold frombuffer, dtype_of_width; cbn [Z.eqb Pos.eqb itemsize].
  - rewrite Z.mod_1_r. cbn [Z.eqb bind]. f_equal.
    induction n as [|n IH]; [reflexivity|].
    cbn [repeat frombuffer_u8 map tobytes flat_map] in *.
    change (Z_of_byte x80) with 128. rewrite S1.
    unfold frombuffer_u8, tobytes in IH. rewrite IH. reflexivity.
  - rewrite len_concat_repeat.
    replace (Z.of_nat n * len [x00; x00]) with (Z.of_nat n * 2) by reflexivity.
    rewrite Z.mod_mul by lia. cbn [Z.eqb bind]. f_equal.
    induction n as [|n IH]; [reflexivity|].
    cbn [repeat concat app frombuffer_i16 map tobytes flat_map] in *.
    change (signed 16 (Z_of_byte x00 + 256 * Z_of_byte x00)) with 0.
    rewrite S2. unfold tobytes in IH. rewrite IH. reflexivity.
  - rewrite len_concat_repeat.
    replace (Z.of_nat n * len [x00; x00; x00; x00]) with (Z.of_nat n * 4)
      by reflexivity.
    rewrite Z.mod_mul by lia. cbn [Z.eqb bind]. f_equal.
    induction n as [|n IH]; [reflexivity|].
    cbn [repeat concat app frombuffer_i32 map tobytes flat_map] in *.
    change (signed 32 (Z_of_byte x00 + 256 * Z_of_byte x00
                       + 65536 * Z_of_byte x00 + 16777216 * Z_of_byte x00))
      with 0.
    rewrite S4. unfold tobytes in IH. rewrite IH. reflexivity.
Qed.

(** ** Unit gain *)

(** X11.  At factor 1, which is what 0 dB gives, a payload of 16-bit
    samples comes back byte for byte, on every platform. *)
Theorem unit_gain_keeps_int16_payload (P : platform) (buf : bytes) :
  len buf mod 2 = 0 -> gain_frames P 2 f32_one buf = Ok buf.
Proof. apply unit_gain_int16. Qed.

Lemma unit_gain_keeps_int16_payload_witness :
  gain_frames x86_64 2 f32_one [x10; x27; xf0; xd8; xff; x7f; x00; x80]
    = Ok [x10; x27; xf0; xd8; xff; x7f; x00; x80].
Proof.
  apply (unit_gain_keeps_int16_payload x86_64
           [x10; x27; xf0; xd8; xff; x7f; x00; x80]).
  reflexivity.
Defined.

(** X12.  At factor 1 every payload of 8-bit samples comes back byte for
    byte on x86-64, where the conversion of a negative float to [uint8]
    wraps around. *)
Theorem unit_gain_keeps_uint8_payload (buf : bytes) :
  gain_frames x86_64 1 f32_one buf = Ok buf.
Proof. apply unit_gain_uint8_x86_64. Qed.

(** * Further properties of [reduce_volume] *)

Lemma dict_set_same_value (k : str) (v : bytes) (d : dict) :
  dict_get k d = Some v -> dict_set k v d = d.
Proof.
  induction d as [|[k' v'] d IH]; cbn; [discriminate|].
  destruct (str_eqb k k') eqn:E.
  - intros H. injection H as ->. reflexivity.
  - intros H. rewrite IH by exact H. reflexivity.
Qed.

(** Given width 2 and factor 1, such a file is returned byte for byte. *)
Lemma unit_gain_keeps_int16_stream
  (P : platform) (size : Z) (cs : list raw_chunk) (p : bytes) :
  0 <= size < 2 ^ 32 -> Forall well_formed cs ->
  Forall (fun c => forallb is_ascii (fst c) = true) cs ->
  NoDup (map fst cs) -> Forall even_payload cs -> In (b_data, p) cs ->
  reduce_volume P (header size ++ stream cs) 2 f32_one
    = Ok (header size ++ stream cs).
Proof.
  intros Hs Hwf Hascii Hnd He Hin.
  destruct (write_after_read_stream size cs Hs Hwf Hascii Hnd) as [R W].
  assert (Hkeys : NoDup (dict_keys (map item_of_raw cs))).
  { pose proof (read_wav_chunks_stream size cs [] Hs Hwf truncated_nil) as R'.
    rewrite app_nil_r, R in R'. apply Ok_inj in R'.
    injection R' as ->. apply dict_of_NoDup. }
  assert (Hget : dict_get str_data (map item_of_raw cs) = Some p).
  { apply In_dict_get; [exact Hkeys|].
    change (str_data, p) with (item_of_raw (b_data, p)).
    apply in_map, Hin. }
  assert (Hp : len p mod 2 = 0).
  { rewrite Forall_forall in He. apply (He (b_data, p) Hin). }
  unfold reduce_volume. rewrite R. cbn [bind].
  unfold reduce_volume_chunks. rewrite Hget.
  rewrite (unit_gain_int16 P p Hp).
  rewrite (dict_set_same_value _ _ _ Hget), Hget. cbn [bind].
  replace (size - len p + len p) with size by lia.
  rewrite W. rewrite (stream_nopad_even cs He). reflexivity.
Qed.

(** X14.  A file without a chunk whose identifier reads as "data" is
    rejected with the missing-chunk error, whatever the sample width and the
    factor, and whatever else the file holds. *)
Theorem file_without_data_rejected
  (P : platform) (size : Z) (cs : list raw_chunk) (tail : bytes)
  (w : Z) (factor : f32) :
  0 <= size < 2 ^ 32 -> Forall well_formed cs -> truncated tail ->
  Forall (fun c => decode_ascii_replace (fst c) <> str_data) cs ->
  reduce_volume P (header size ++ stream cs ++ tail) w factor
    = Raise ValueError_data_not_found.
Proof.
  intros Hs Hwf Ht Hno. unfold reduce_volume.
  rewrite (read_wav_chunks_stream size cs tail Hs Hwf Ht). cbn [bind].
  unfold reduce_volume_chunks, dict_of.
  rewrite (fold_add_chunk_other str_data cs [] Hno). reflexivity.
Qed.

(** A file with a format chunk only, at an unsupported width. *)
Lemma file_without_data_rejected_witness :
  reduce_volume x86_64 (header 28 ++ stream [(b_fmt, fmt_pcm16)] ++ []) 3 f32_two
    = Raise ValueError_data_not_found.
Proof.
  apply (file_without_data_rejected x86_64 28 [(b_fmt, fmt_pcm16)] [] 3 f32_two).
  - split; [apply Z.leb_le|apply Z.ltb_lt]; reflexivity.
  - repeat constructor.
  - left. reflexivity.
  - repeat constructor. discriminate.
Defined.

Lemma write_items_outcome (d : dict) :
  Forall (fun kv => len (snd kv) < 2 ^ 32) d ->
  (exists out, write_items d = Ok out) \/ write_items d = Raise UnicodeEncodeError.
Proof.
  induction 1 as [|[k v] d Hv _ IH]; [left; eexists; reflexivity|].
  cbn [write_items snd] in *. unfold encode_ascii.
  destruct (forallb _ k); cbn [bind]; [|right; reflexivity].
  rewrite pack_u32_ok by (split; [apply len_nonneg|exact Hv]). cbn [bind].
  destruct IH as [[out ->]| ->]; cbn [bind];
    [left; eexists; reflexivity|right; reflexivity].
Qed.

Lemma gain_frames_raise_inv
  (P : platform) (w : Z) (factor : f32) (buf : bytes) (e : exn) :
  gain_frames P w factor buf = Raise e ->
  e = ValueError_unsupported_width w \/ e = ValueError_buffer_size.
Proof.
  unfold gain_frames, frombuffer.
  destruct (w =? 1); [|destruct (w =? 2); [|destruct (w =? 4)]];
    cbn [itemsize]; try destruct (_ =? 0); cbn [bind]; intros H;
    try discriminate H; injection H as <-; auto.
Qed.

(** * The loop over the files *)



(** * The transform on a whole file *)

Lemma dict_set_middle (k : str) (v old : bytes) (d1 d2 : dict) :
  ~ In k (dict_keys d1) ->
  dict_set k v (d1 ++ (k, old) :: d2) = d1 ++ (k, v) :: d2.
Proof.
  induction d1 as [|[k' v'] d1 IH]; cbn; intros Hn.
  - rewrite str_eqb_refl. reflexivity.
  - destruct (str_eqb k k') eqn:E.
    + apply str_eqb_eq in E. subst k'. exfalso. apply Hn. left. reflexivity.
    + rewrite IH; [reflexivity|]. intros H. apply Hn. right. exact H.
Qed.

(** Given the width and the factor, on a file of complete chunks with
    distinct ASCII identifiers, one of them [data]. *)
Lemma reduce_volume_on_stream_given
  (P : platform) (size w : Z) (factor : f32)
  (cs1 cs2 : list raw_chunk) (p p' : bytes) :
  0 <= size < 2 ^ 32 ->
  Forall well_formed (cs1 ++ (b_data, p) :: cs2) ->
  Forall (fun c => forallb is_ascii (fst c) = true) (cs1 ++ (b_data, p) :: cs2) ->
  NoDup (map fst (cs1 ++ (b_data, p) :: cs2)) ->
  gain_frames P w factor p = Ok p' ->
  reduce_volume P (header size ++ stream (cs1 ++ (b_data, p) :: cs2)) w factor
    = Ok (header size ++ flat_map chunk_nopad (cs1 ++ (b_data, p') :: cs2)).
Proof.
  intros Hs Hwf Hascii Hnd G.
  set (cs := cs1 ++ (b_data, p) :: cs2) in *.
  set (cs' := cs1 ++ (b_data, p') :: cs2).
  assert (Hlen : len p' = len p) by (apply (gain_frames_len P w factor), G).
  assert (Hwf' : Forall well_formed cs').
  { unfold cs, cs' in *. apply Forall_app in Hwf. destruct Hwf as [H1 H2].
    inversion H2 as [|? ? [Ha Hb] H3]; subst. cbn [fst snd] in *.
    apply Forall_app. split; [exact H1|]. constructor; [|exact H3].
    split; cbn [fst snd]; [exact Ha|rewrite Hlen; exact Hb]. }
  assert (Hascii' : Forall (fun c => forallb is_ascii (fst c) = true) cs').
  { unfold cs, cs' in *. apply Forall_app in Hascii. destruct Hascii as [H1 H2].
    inversion H2 as [|? ? Ha H3]; subst.
    apply Forall_app. split; [exact H1|]. constructor; assumption. }
  assert (Hnd' : NoDup (map fst cs')).
  { unfold cs, cs' in *. rewrite map_app in *. exact Hnd. }
  destruct (write_after_read_stream size cs Hs Hwf Hascii Hnd) as [R _].
  destruct (write_after_read_stream size cs' Hs Hwf' Hascii' Hnd') as [_ W'].
  assert (Hn1 : ~ In str_data (dict_keys (map item_of_raw cs1))).
  { intros Hin. unfold dict_keys in Hin. rewrite map_map in Hin.
    apply in_map_iff in Hin. destruct Hin as [c [E Hc]]. cbn [item_of_raw fst] in E.
    assert (Ec : fst c = b_data)
      by (apply (decode_replace_inj_ascii b_data (fst c)); [reflexivity|exact E]).
    unfold cs in Hnd. rewrite map_app in Hnd. cbn [map fst] in Hnd.
    apply NoDup_remove_2 in Hnd. apply Hnd. apply in_or_app. left.
    rewrite <- Ec. apply in_map, Hc. }
  assert (Hsplit : map item_of_raw cs
                   = map item_of_raw cs1 ++ (str_data, p) :: map item_of_raw cs2).
  { unfold cs. rewrite map_app. reflexivity. }
  assert (Hget : dict_get str_data (map item_of_raw cs) = Some p).
  { rewrite Hsplit. clear -Hn1. induction (map item_of_raw cs1) as [|[k v] d IH].
    - reflexivity.
    - cbn [app dict_get]. destruct (str_eqb str_data k) eqn:E.
      + apply str_eqb_eq in E. subst k. exfalso. apply Hn1. left. reflexivity.
      + apply IH. intros H. apply Hn1. right. exact H. }
  unfold reduce_volume. rewrite R. cbn [bind].
  unfold reduce_volume_chunks. rewrite Hget, G.
  rewrite dict_get_set_same. cbn [bind].
  replace (size - len p' + len p') with size by lia.
  rewrite Hsplit, (dict_set_middle _ _ _ _ _ Hn1).
  replace (map item_of_raw cs1 ++ (str_data, p') :: map item_of_raw cs2)
    with (map item_of_raw cs') by (unfold cs'; rewrite map_app; reflexivity).
  exact W'.
Qed.

(** * Hard clipping of 16-bit samples *)

Lemma double_gain_int16_checked :
  forallb (fun b0 => forallb (double_gain_int16_check b0) all_bytes) all_bytes
  = true.
Proof. vm_compute. reflexivity. Qed.

Lemma double_gain_int16_sample (P : platform) (b0 b1 : byte) :
  gain_sample P 2 f32_two (signed 16 (Z_of_byte b0 + 256 * Z_of_byte b1))
  = clamp16 (2 * signed 16 (Z_of_byte b0 + 256 * Z_of_byte b1)).
Proof.
  pose proof double_gain_int16_checked as H.
  rewrite forallb_forall in H. specialize (H b0 (all_bytes_complete b0)).
  rewrite forallb_forall in H. specialize (H b1 (all_bytes_complete b1)).
  unfold double_gain_int16_check in H.
  unfold gain_sample, dtype_of_width, astype. cbn [Z.eqb Pos.eqb].
  change (2 ^ (8 * 2 - 1) - 1) with 32767.
  change (- 32767 - 1) with (-32768).
  destruct (f32_trunc _) as [y|]; [|discriminate].
  apply andb_true_iff in H. destruct H as [Hr He]. rewrite Hr.
  apply Z.eqb_eq, He.
Qed.

Lemma double_gain_int16_samples (P : platform) (buf : bytes) :
  map (gain_sample P 2 f32_two) (frombuffer_i16 buf)
  = map (fun z => clamp16 (2 * z)) (frombuffer_i16 buf).
Proof.
  enough (H : map (gain_sample P 2 f32_two) (frombuffer_i16 buf)
              = map (fun z => clamp16 (2 * z)) (frombuffer_i16 buf) /\
              forall b, map (gain_sample P 2 f32_two) (frombuffer_i16 (b :: buf))
                        = map (fun z => clamp16 (2 * z))
                            (frombuffer_i16 (b :: buf))) by apply H.
  induction buf as [|b0 buf [IH1 IH2]].
  - split; [reflexivity|intros b; reflexivity].
  - split; [apply IH2|]. intros b. cbn [frombuffer_i16 map].
    rewrite double_gain_int16_sample, IH1. reflexivity.
Qed.

(** X18.  At factor 2, on every platform, each 16-bit sample [z] of a
    payload becomes [2 z] limited to the range from -32768 to 32767: values
    beyond the range are clipped to its ends and never wrap around. *)
Theorem double_gain_clamps_int16 (P : platform) (buf : bytes) :
  len buf mod 2 = 0 ->
  gain_frames P 2 f32_two buf
    = Ok (tobytes int16 (map (fun z => clamp16 (2 * z)) (frombuffer_i16 buf))).
Proof.
  intros Hm. rewrite gain_frames_samples by auto.
  unfold frombuffer, dtype_of_width. cbn [Z.eqb Pos.eqb itemsize].
  rewrite Hm. cbn [Z.eqb bind]. do 2 f_equal.
  apply double_gain_int16_samples.
Qed.

(** 10000, -10000, 32767 and -32768 doubled. *)
Lemma double_gain_clamps_int16_witness :
  gain_frames x86_64 2 f32_two [x10; x27; xf0; xd8; xff; x7f; x00; x80]
    = Ok (tobytes int16 [20000; -20000; 32767; -32768]).
Proof.
  apply (double_gain_clamps_int16 x86_64 [x10; x27; xf0; xd8; xff; x7f; x00; x80]).
  reflexivity.
Defined.

(** * The function with its two library calls *)

Section Environment.

Variable E : environment.
Variable P : platform.

(** Once line 96 has returned [v], the transform is the one for the factor
    [f32_of_f64 v]. *)
Lemma gain_frames_db_given (w : Z) (db v : f64) (buf : bytes) :
  pow10_db E db = Ok v ->
  gain_frames_db E P w db buf = gain_frames P w (f32_of_f64 v) buf.
Proof.
  intros Hv. unfold gain_frames_db, gain_frames, frombuffer.
  destruct (w =? 1); [|destruct (w =? 2); [|destruct (w =? 4)]];
    cbn [itemsize]; try destruct (_ =? 0); cbn [bind]; try reflexivity;
    rewrite Hv; reflexivity.
Qed.

Lemma gain_frames_db_ok_inv (w : Z) (db : f64) (buf out : bytes) :
  gain_frames_db E P w db buf = Ok out ->
  exists v, pow10_db E db = Ok v /\ gain_frames P w (f32_of_f64 v) buf = Ok out.
Proof.
  intros H. destruct (pow10_db E db) as [v| |] eqn:Hv.
  - exists v. split; [reflexivity|].
    rewrite <- (gain_frames_db_given w db v buf Hv). exact H.
  - exfalso. revert H. unfold gain_frames_db, frombuffer.
    destruct (w =? 1); [|destruct (w =? 2); [|destruct (w =? 4)]];
      cbn [itemsize]; try destruct (_ =? 0); cbn [bind];
      rewrite ?Hv; discriminate.
  - exfalso. revert H. unfold gain_frames_db, frombuffer.
    destruct (w =? 1); [|destruct (w =? 2); [|destruct (w =? 4)]];
      cbn [itemsize]; try destruct (_ =? 0); cbn [bind];
      rewrite ?Hv; discriminate.
Qed.

Lemma gain_frames_db_raise_inv (w : Z) (db : f64) (buf : bytes) (e : exn) :
  gain_frames_db E P w db buf = Raise e ->
  e = ValueError_unsupported_width w \/ e = ValueError_buffer_size \/
  pow10_db E db = Raise e.
Proof.
  unfold gain_frames_db, frombuffer.
  destruct (w =? 1); [|destruct (w =? 2); [|destruct (w =? 4)]];
    cbn [itemsize]; try destruct (_ =? 0); cbn [bind];
    try (intros H; injection H as <-; auto);
    destruct (pow10_db E db); cbn [bind]; intros H;
    try discriminate H; injection H as <-; auto.
Qed.

Lemma gain_frames_db_out_of_fuel_inv (w : Z) (db : f64) (buf : bytes) :
  gain_frames_db E P w db buf = OutOfFuel -> pow10_db E db = OutOfFuel.
Proof.
  unfold gain_frames_db, frombuffer.
  destruct (w =? 1); [|destruct (w =? 2); [|destruct (w =? 4)]];
    cbn [itemsize]; try destruct (_ =? 0); cbn [bind]; try discriminate;
    destruct (pow10_db E db); cbn [bind]; intros H;
    try discriminate H; reflexivity.
Qed.

(** Once [wave.open] and line 96 have returned, the function is the one for
    that width and that factor. *)
Lemma reduce_volume_file_given (data : bytes) (db v : f64) (w : Z) :
  wave_sampwidth E data = Ok w -> pow10_db E db = Ok v ->
  reduce_volume_file E P data db = reduce_volume P data w (f32_of_f64 v).
Proof.
  intros Hw Hv. unfold reduce_volume_file, reduce_volume.
  destruct (read_wav_chunks data) as [[chunks size]| |]; cbn [bind];
    try reflexivity.
  unfold reduce_volume_chunks.
  destruct (dict_get str_data chunks) as [old|]; [|reflexivity].
  rewrite Hw. cbn [bind]. rewrite (gain_frames_db_given w db v old Hv).
  destruct (gain_frames P w (f32_of_f64 v) old); reflexivity.
Qed.

(** X9.  The transform of a payload (lines 82-112) returns exactly when the
    sample width is 1, or is 2 or 4 and divides the payload length, and
    line 96 returns a factor instead of raising; the empty payload is
    accepted.  What it returns has the length of the payload. *)
Theorem gain_frames_db_succeeds_iff (w : Z) (db : f64) (buf : bytes) :
  ((exists out, gain_frames_db E P w db buf = Ok out) <->
   ((w = 1 \/ ((w = 2 \/ w = 4) /\ len buf mod w = 0)) /\
    exists v, pow10_db E db = Ok v)) /\
  (forall out, gain_frames_db E P w db buf = Ok out -> len out = len buf).
Proof.
  split; [split|].
  - intros [out H]. destruct (gain_frames_db_ok_inv _ _ _ _ H) as [v [Hv G]].
    split; [|exists v; exact Hv].
    apply (proj1 (gain_frames_ok_iff P w (f32_of_f64 v) buf)).
    exists out. exact G.
  - intros [Hw [v Hv]]. rewrite (gain_frames_db_given w db v buf Hv).
    apply (proj1 (gain_frames_ok_iff P w (f32_of_f64 v) buf)). exact Hw.
  - intros out H. destruct (gain_frames_db_ok_inv _ _ _ _ H) as [v [_ G]].
    apply (gain_frames_len P w (f32_of_f64 v)), G.
Qed.

(** X10.  When line 96 returns a factor that is finite as a [float32], a
    payload of silence comes back unchanged on every platform: bytes [80]
    at width 1, zero samples at widths 2 and 4.  A factor beyond the range
    of [float32] becomes an infinity and is not covered. *)
Theorem silence_is_kept (db v : f64) (n : nat) :
  pow10_db E db = Ok v -> f32_is_finite (f32_of_f64 v) = true ->
  gain_frames_db E P 1 db (repeat x80 n) = Ok (repeat x80 n) /\
  gain_frames_db E P 2 db (concat (repeat [x00; x00] n))
    = Ok (concat (repeat [x00; x00] n)) /\
  gain_frames_db E P 4 db (concat (repeat [x00; x00; x00; x00] n))
    = Ok (concat (repeat [x00; x00; x00; x00] n)).
Proof.
  intros Hv Hf. rewrite !(gain_frames_db_given _ db v _ Hv).
  apply zero_samples_kept, Hf.
Qed.

(** X13.  When [wave] reports a width of 2 for the file and line 96 returns
    1.0, as for [db_change = 0], a file whose chunks are complete, have
    distinct ASCII identifiers and payloads of even length, and include a
    [data] chunk, is returned byte for byte. *)
Theorem zero_db_keeps_int16_file
  (db : f64) (size : Z) (cs : list raw_chunk) (p : bytes) :
  wave_sampwidth E (header size ++ stream cs) = Ok 2 ->
  pow10_db E db = Ok f64_one ->
  0 <= size < 2 ^ 32 -> Forall well_formed cs ->
  Forall (fun c => forallb is_ascii (fst c) = true) cs ->
  NoDup (map fst cs) -> Forall even_payload cs -> In (b_data, p) cs ->
  reduce_volume_file E P (header size ++ stream cs) db
    = Ok (header size ++ stream cs).
Proof.
  intros Hw Hv Hs Hwf Ha Hnd He Hin.
  rewrite (reduce_volume_file_given _ db f64_one 2 Hw Hv).
  change (f32_of_f64 f64_one) with f32_one.
  apply (unit_gain_keeps_int16_stream P size cs p); assumption.
Qed.

(** X15.  Once the two tags of the file are valid, [reduce_volume] returns a
    file or raises one of: the missing-[data] error, what [wave.open]
    raises on the file, the unsupported-width error for the width [wave]
    reports, the error of a payload that is not a multiple of the width,
    what line 96 raises, or [UnicodeEncodeError] for a chunk identifier
    that is not ASCII.  The code of the repository itself raises no
    [struct.error] and no [KeyError] then. *)
Theorem reduce_volume_file_outcomes (data : bytes) (db : f64) :
  valid_tags data ->
  match reduce_volume_file E P data db with
  | Ok _ => True
  | Raise e =>
      e = ValueError_data_not_found \/
      wave_sampwidth E data = Raise e \/
      (exists w, wave_sampwidth E data = Ok w /\
                 e = ValueError_unsupported_width w) \/
      e = ValueError_buffer_size \/
      pow10_db E db = Raise e \/
      e = UnicodeEncodeError
  | OutOfFuel =>
      wave_sampwidth E data = OutOfFuel \/ pow10_db E db = OutOfFuel
  end.
Proof.
  intros Ht.
  destruct (read_wav_chunks_total data Ht) as [chunks [size [R U]]].
  destruct (chunk_loop_invariant _ data 12 [] chunks (Z.le_refl 12)
              (Forall_nil _) (NoDup_nil _)
              (proj2 (proj2 (read_wav_chunks_ok_inv _ _ _ R)))) as [Hok _].
  assert (Hlen : Forall (fun kv => len (snd kv) < 2 ^ 32) chunks).
  { eapply Forall_impl; [|exact Hok]. intros kv [_ [H _]]. exact H. }
  pose proof (unpack_u32_range _ _ U) as Hs.
  unfold reduce_volume_file. rewrite R. cbn [bind].
  destruct (dict_get str_data chunks) as [old|] eqn:D; [|auto].
  destruct (wave_sampwidth E data) as [w|e|] eqn:Hw; cbn [bind]; [|auto|auto].
  destruct (gain_frames_db E P w db old) as [new|e|] eqn:G; cbn [bind].
  - rewrite dict_get_set_same. cbn [bind]. unfold write_wav_chunks.
    replace (size - len new + len new) with size by lia.
    rewrite (pack_u32_ok size Hs). cbn [bind].
    assert (Hlen' : Forall (fun kv => len (snd kv) < 2 ^ 32)
                      (dict_set str_data new chunks)).
    { apply Forall_dict_set; [exact Hlen|]. cbn [snd].
      destruct (gain_frames_db_ok_inv _ _ _ _ G) as [v [_ G']].
      rewrite (gain_frames_len P w (f32_of_f64 v) old new G').
      apply dict_get_In in D. rewrite Forall_forall in Hlen.
      apply (Hlen _ D). }
    destruct (write_items_outcome _ Hlen') as [[out ->]| ->]; cbn [bind];
      [exact I|]. do 5 right. reflexivity.
  - destruct (gain_frames_db_raise_inv _ _ _ _ G) as [->|[->|H]].
    + right. right. left. exists w. split; reflexivity.
    + do 3 right. left. reflexivity.
    + do 4 right. left. exact H.
  - right. apply (gain_frames_db_out_of_fuel_inv _ _ _ G).
Qed.

(** X17.  On a file of complete chunks with distinct ASCII identifiers, one
    of them [data], for which [wave] reports the width [w] and the
    transform of the [data] payload returns [p'], [reduce_volume] returns
    the same header and the same chunks in the same order, with the payload
    of [data] replaced by [p'] and without pad bytes. *)
Theorem reduce_volume_file_on_stream
  (size w : Z) (db : f64) (cs1 cs2 : list raw_chunk) (p p' : bytes) :
  wave_sampwidth E (header size ++ stream (cs1 ++ (b_data, p) :: cs2)) = Ok w ->
  gain_frames_db E P w db p = Ok p' ->
  0 <= size < 2 ^ 32 ->
  Forall well_formed (cs1 ++ (b_data, p) :: cs2) ->
  Forall (fun c => forallb is_ascii (fst c) = true) (cs1 ++ (b_data, p) :: cs2) ->
  NoDup (map fst (cs1 ++ (b_data, p) :: cs2)) ->
  reduce_volume_file E P (header size ++ stream (cs1 ++ (b_data, p) :: cs2)) db
    = Ok (header size ++ flat_map chunk_nopad (cs1 ++ (b_data, p') :: cs2)).
Proof.
  intros Hw G Hs Hwf Ha Hnd.
  destruct (gain_frames_db_ok_inv _ _ _ _ G) as [v [Hv G']].
  rewrite (reduce_volume_file_given _ db v w Hw Hv).
  apply (reduce_volume_on_stream_given P size w (f32_of_f64 v) cs1 cs2 p p');
    assumption.
Qed.

End Environment.

(** The empty payload at width 4, and five bytes at width 1. *)
Lemma gain_frames_db_succeeds_iff_witness :
  (exists out, gain_frames_db env_16bit_0dB x86_64 4 f64_zero [] = Ok out) /\
  (exists out, gain_frames_db env_16bit_0dB x86_64 1 f64_zero
                 [x00; x40; x80; xc0; xff] = Ok out).
Proof.
  split.
  - apply (proj2 (proj1 (gain_frames_db_succeeds_iff env_16bit_0dB x86_64 4
                            f64_zero []))).
    split; [right; split; [right; reflexivity|reflexivity]|].
    exists f64_one. reflexivity.
  - apply (proj2 (proj1 (gain_frames_db_succeeds_iff env_16bit_0dB x86_64 1
                            f64_zero [x00; x40; x80; xc0; xff]))).
    split; [left; reflexivity|]. exists f64_one. reflexivity.
Defined.

Lemma silence_is_kept_witness :
  gain_frames_db env_16bit_0dB x86_64 1 f64_zero (repeat x80 3)
    = Ok (repeat x80 3) /\
  gain_frames_db env_16bit_0dB x86_64 2 f64_zero (concat (repeat [x00; x00] 3))
    = Ok (concat (repeat [x00; x00] 3)) /\
  gain_frames_db env_16bit_0dB x86_64 4 f64_zero
    (concat (repeat [x00; x00; x00; x00] 3))
    = Ok (concat (repeat [x00; x00; x00; x00] 3)).
Proof.
  apply (silence_is_kept env_16bit_0dB x86_64 f64_zero f64_one 3);
    reflexivity.
Defined.

(** Beyond the range of [float32] silence is not kept: the factor 1e40,
    which line 96 gives for [db_change = 800], becomes an infinity, zero
    times infinity is not a number, and on x86-64 the cast stores
    -2147483648. *)
Lemma silence_lost_beyond_float32 :
  f32_of_f64 (binary_normalize 53 1024 (10 ^ 40) 0 false) = S754_infinity false /\
  gain_frames x86_64 4 (S754_infinity false) [x00; x00; x00; x00]
    = Ok [x00; x00; x00; x80].
Proof. split; vm_compute; reflexivity. Qed.

Lemma zero_db_keeps_int16_file_witness :
  reduce_volume_file env_16bit_0dB x86_64 wav_pcm16 f64_zero = Ok wav_pcm16.
Proof.
  apply (zero_db_keeps_int16_file env_16bit_0dB x86_64 f64_zero 56
           [(b_fmt, fmt_pcm16); (b_smpl, [xde; xad; xbe; xef]);
            (b_data, [x10; x27; xf0; xd8; xff; x7f; x00; x80])]
           [x10; x27; xf0; xd8; xff; x7f; x00; x80]).
  - reflexivity.
  - reflexivity.
  - split; [apply Z.leb_le|apply Z.ltb_lt]; reflexivity.
  - repeat constructor.
  - repeat constructor.
  - repeat constructor; cbn; intuition discriminate.
  - repeat constructor.
  - right. right. left. reflexivity.
Defined.

(** The file with the identifier [ff 41 42 43] and no [data] chunk. *)
Lemma reduce_volume_file_outcomes_witness :
  match reduce_volume_file env_16bit_0dB x86_64 wav_bin_id f64_zero with
  | Ok _ => True
  | Raise e =>
      e = ValueError_data_not_found \/
      wave_sampwidth env_16bit_0dB wav_bin_id = Raise e \/
      (exists w, wave_sampwidth env_16bit_0dB wav_bin_id = Ok w /\
                 e = ValueError_unsupported_width w) \/
      e = ValueError_buffer_size \/
      pow10_db env_16bit_0dB f64_zero = Raise e \/
      e = UnicodeEncodeError
  | OutOfFuel =>
      wave_sampwidth env_16bit_0dB wav_bin_id = OutOfFuel \/
      pow10_db env_16bit_0dB f64_zero = OutOfFuel
  end.
Proof.
  apply (reduce_volume_file_outcomes env_16bit_0dB x86_64 wav_bin_id f64_zero).
  split; reflexivity.
Defined.

(** The file [wav_pcm16] at 0 dB. *)
Lemma reduce_volume_file_on_stream_witness :
  reduce_volume_file env_16bit_0dB x86_64
    (header 56 ++ stream ([(b_fmt, fmt_pcm16); (b_smpl, [xde; xad; xbe; xef])]
                          ++ (b_data, [x10; x27; xf0; xd8; xff; x7f; x00; x80])
                          :: []))
    f64_zero
  = Ok (header 56
        ++ flat_map chunk_nopad
             ([(b_fmt, fmt_pcm16); (b_smpl, [xde; xad; xbe; xef])]
              ++ (b_data, [x10; x27; xf0; xd8; xff; x7f; x00; x80]) :: [])).
Proof.
  apply (reduce_volume_file_on_stream env_16bit_0dB x86_64 56 2 f64_zero
           [(b_fmt, fmt_pcm16); (b_smpl, [xde; xad; xbe; xef])] []
           [x10; x27; xf0; xd8; xff; x7f; x00; x80]
           [x10; x27; xf0; xd8; xff; x7f; x00; x80]).
  - reflexivity.
  - vm_compute. reflexivity.
  - split; [apply Z.leb_le|apply Z.ltb_lt]; reflexivity.
  - repeat constructor.
  - repeat constructor.
  - repeat constructor; cbn; intuition discriminate.
Defined.
